(** * pyredex/utils.py: the extract / unpack / repack pipeline

    A shallow embedding of [src/pyredex/utils.py], the properties of the
    packaging pipeline that its specification states, and further properties
    of the functions of the file.

    Conventions of the embedding:
    - Python [str] values are [string]s of bytes; ordering of strings is the
      byte-wise lexicographic order, which is the order Python uses on the
      code points of ASCII names.
    - A raised exception is the [Raise] case of [except]; side effects made
      before the exception stay in the state.
    - A directory tree on disk is a [node]; the order of a directory's
      entries is the order in which the operating system lists them, which
      the code must not rely on.
    - The objects the code keeps per class or per process (the class-level
      dictionary of [ZipManager], the module-level list [temp_dirs]) are
      explicit state threaded through the calls. *)

From Stdlib Require Import Ascii String.
From stdpp Require Import gmap strings list sorting pretty.

Set Warnings "-register-all,-clear-no-such-hyp".

(** ** Exceptions *)

Inductive exn : Type :=
  | Exception (msg : string)
  | KeyError (key : string)
  | FileNotFoundError (path : string)
  | FileExistsError (path : string)
  | NotADirectoryError (path : string)
  | CalledProcessError (cmd : string)
  | AttributeError (name : string)
  | ExternalError (what : string).

Inductive except (A : Type) : Type :=
  | Ok (a : A)
  | Raise (e : exn).
Arguments Ok {A} a.
Arguments Raise {A} e.

Definition is_ok {A} (r : except A) : bool :=
  match r with Ok _ => true | Raise _ => false end.

Definition ebind {A B} (r : except A) (k : A → except B) : except B :=
  match r with
  | Ok a => k a
  | Raise e => Raise e
  end.

(** [[f(x) for x in l]] where [f] may raise: elements are evaluated from left
    to right and the first exception ends the evaluation. *)
Fixpoint emap {A B} (f : A → except B) (l : list A) : except (list B) :=
  match l with
  | [] => Ok []
  | x :: l' =>
      ebind (f x) (λ y, ebind (emap f l') (λ ys, Ok (y :: ys)))
  end.

(** ** Strings and POSIX paths *)

Module Str.

Definition slash : ascii := "/"%char.
Definition newline : ascii := "010"%char.
Definition hyphen : ascii := "-"%char.
Definition dot : ascii := "."%char.

(** [s.startswith(pre)] *)
Fixpoint startswith (s pre : string) : bool :=
  match pre, s with
  | EmptyString, _ => true
  | String a pre', String b s' => if decide (a = b) then startswith s' pre' else false
  | String _ _, EmptyString => false
  end.

(** [s.endswith(suf)]: some tail of [s] is [suf]. *)
Fixpoint endswith (s suf : string) : bool :=
  if decide (s = suf) then true
  else match s with
       | EmptyString => false
       | String _ s' => endswith s' suf
       end.

(** [s[n:]] *)
Fixpoint drop (n : nat) (s : string) : string :=
  match n, s with
  | O, _ => s
  | S n', String _ s' => drop n' s'
  | S _, EmptyString => EmptyString
  end.

(** [c in s] for a single character *)
Fixpoint contains (c : ascii) (s : string) : bool :=
  match s with
  | EmptyString => false
  | String a s' => if decide (a = c) then true else contains c s'
  end.

(** [posixpath.join(a, b)] *)
Definition join (a b : string) : string :=
  if startswith b "/" then b
  else if decide (a = "") then b
  else if endswith a "/" then a +:+ b
  else a +:+ "/" +:+ b.

(** [posixpath.basename(p)]: [p[p.rfind("/") + 1:]], what follows the last
    slash. *)
Fixpoint basename (p : string) : string :=
  match p with
  | EmptyString => EmptyString
  | String a p' =>
      if contains slash p' then basename p'
      else if decide (a = slash) then p'
      else p
  end.

Definition is_digit (c : ascii) : bool :=
  let n := N_of_ascii c in (48 <=? n)%N && (n <=? 57)%N.

Definition digit_value (c : ascii) : N := (N_of_ascii c - 48)%N.

(** [int(s)] for a string of decimal digits *)
Definition int_of_digits (s : string) : N :=
  (fix go (acc : N) (s : string) : N :=
     match s with
     | EmptyString => acc
     | String c s' => go (10 * acc + digit_value c)%N s'
     end) 0%N s.

End Str.

(** ** Sorting

    [list.sort] and [sorted] are stable: elements with equal keys keep their
    order.  Insertion from the right gives the same result as any stable
    sort, since the result of a stable sort is determined by the input. *)

Section sort_by.
Context {A : Type} (key : A → N).

Fixpoint insert_by (x : A) (l : list A) : list A :=
  match l with
  | [] => [x]
  | y :: l' => if (key x <=? key y)%N then x :: y :: l' else y :: insert_by x l'
  end.

Definition sort_by (l : list A) : list A := foldr insert_by [] l.
End sort_by.

(** [sorted(names)] and [names.sort()] on strings. *)
Definition sorted (names : list string) : list string :=
  merge_sort String.le names.

(** ** Directory trees *)

Inductive node : Type :=
  | File (size : N)
  | Dir (entries : list (string * node)).

(** The listing of a directory: its entries in the order the operating system
    returns them. *)
Abbreviation listing := (list (string * node)).

Module FS.

Definition is_dir (n : node) : bool :=
  match n with Dir _ => true | File _ => false end.

(** The entry called [name], if any. *)
Fixpoint child (name : string) (es : listing) : option node :=
  match es with
  | [] => None
  | (n, c) :: es' => if decide (n = name) then Some c else child name es'
  end.

(** [os.path.isfile] of the entry [name] of a listed directory *)
Definition isfile (es : listing) (name : string) : bool :=
  match child name es with
  | Some (File _) => true
  | _ => false
  end.

(** The two lists [os.walk] builds from [os.scandir]. *)
Definition dirnames (es : listing) : list string :=
  (filter (λ e, is_dir e.2) es).*1.
Definition filenames (es : listing) : list string :=
  (filter (λ e, negb (is_dir e.2)) es).*1.

Fixpoint depth (n : node) : nat :=
  match n with
  | File _ => 0
  | Dir es => S (foldr (λ e d, depth e.2 `max` d) 0 es)
  end.

End FS.

(** ** Dex discovery: [extract_dex_number] and [dex_glob] *)

Module Dex.
Import Str.

(** *** The regular expression [(classes|.*-)(\d+)]

    The matcher follows the backtracking order of Python's [re]: the
    alternatives of group 1 are tried from left to right, [.*] and [\d+]
    are greedy, and [.] matches any character but a newline.  Each function
    returns the text of group 2.  [\d] is taken on the ASCII digits. *)

(** [\d+] at the start of [s]: the longest run of digits, [None] when the
    run is empty.  Nothing follows [\d+] in the pattern, so the longest run
    is the one the match keeps. *)
Fixpoint digit_run (s : string) : string :=
  match s with
  | String c s' => if is_digit c then String c (digit_run s') else EmptyString
  | EmptyString => EmptyString
  end.

Definition digits_at (s : string) : option string :=
  match digit_run s with
  | EmptyString => None
  | ds => Some ds
  end.

(** The first alternative, [classes(\d+)], at the start of [s]. *)
Definition classes_digits (s : string) : option string :=
  if startswith s "classes" then digits_at (drop 7 s) else None.

(** The second alternative, [.*-(\d+)], at the start of [s]: [.*] first
    takes one more character and only gives it back when the rest of the
    pattern fails further on. *)
Fixpoint dotstar_hyphen_digits (s : string) : option string :=
  match s with
  | EmptyString => None
  | String c s' =>
      match (if decide (c = newline) then None else dotstar_hyphen_digits s') with
      | Some ds => Some ds
      | None => if decide (c = hyphen) then digits_at s' else None
      end
  end.

(** [re.match(pattern, s)]: the pattern at the start of [s]. *)
Definition match_here (s : string) : option string :=
  match classes_digits s with
  | Some ds => Some ds
  | None => dotstar_hyphen_digits s
  end.

(** [re.search(pattern, s)]: the match at the leftmost position that has
    one; the result is [m.group(2)]. *)
Fixpoint search (s : string) : option string :=
  match match_here s with
  | Some ds => Some ds
  | None =>
      match s with
      | EmptyString => None
      | String _ s' => search s'
      end
  end.

Definition extract_dex_number (dexfilename : string) : except N :=
  match search (basename dexfilename) with
  | None => Raise (Exception ("Bad secondary dex name: " +:+ dexfilename))
  | Some ds => Ok (int_of_digits ds)
  end.

(** *** [dex_glob] *)

(** [fnmatch] of a name against ["*.dex"], and the rule of [glob] that a
    pattern not starting with a dot matches no name starting with one. *)
Definition matches_star_dex (name : string) : bool :=
  endswith name ".dex" && negb (startswith name ".").

(** [glob.has_magic]: with one of these characters in it, [glob] reads a
    name as a pattern. *)
Definition has_magic (s : string) : bool :=
  contains "*" s || contains "?" s || contains "[" s.

(** A directory name that [glob] takes as it is written: it is no pattern,
    and [os.path.split] gives it back as the directory part of
    [join(directory, "*.dex")], which it does not for a name that ends in
    two slashes. *)
Definition listed_literally (directory : string) : bool :=
  negb (has_magic directory) && negb (endswith directory "//").

Section with_file_system.
(** For a directory name that is not listed literally: the directories
    that [glob] comes to, in its order, each under the name that [glob]
    joins to its entries and with its listing; [None] is the listing of
    the directory itself, for a name that matches itself as a pattern. *)
Variable found : string → list (string * option listing).

(** The directories that [glob.glob(join(directory, "*.dex"))] lists,
    [es] being the listing of [directory]. *)
Definition globbed (directory : string) (es : listing)
    : list (string * listing) :=
  if listed_literally directory then [(directory, es)]
  else (λ d, (d.1, default es d.2)) <$> found directory.

(** [glob.glob(join(directory, "*.dex"))]: the matching entries of the
    directories it lists, files or not, in listing order. *)
Definition glob_star_dex (directory : string) (es : listing) : list string :=
  flat_map (λ d, join d.1 <$> filter (λ n, matches_star_dex n) d.2.*1)
           (globbed directory es).

(** The list comprehension of [dex_glob]. *)
Definition secondaries (directory : string) (es : listing) : list string :=
  filter (λ d, negb (endswith d "classes.dex")) (glob_star_dex directory es).

(** [l.sort(key=f)]: the keys of all elements are computed first, in list
    order, then the elements are sorted by them. *)
Definition sort_with_key (f : string → except N) (l : list string)
    : except (list string) :=
  ebind (emap (λ d, ebind (f d) (λ k, Ok (k, d))) l)
        (λ keyed, Ok (sort_by fst keyed).*2).

Definition dex_glob (directory : string) (es : listing) : except (list string) :=
  let primary := join directory "classes.dex" in
  if negb (FS.isfile es "classes.dex") then Raise (Exception "No primary dex found")
  else
    ebind (sort_with_key extract_dex_number (secondaries directory es))
          (λ sorted_secondaries, Ok ([primary] ++ sorted_secondaries)).
End with_file_system.

End Dex.


(** ** State and exceptions together

    [M S A] is a computation on a state [S] that returns an [A] or raises;
    the state reached when the exception was raised is kept. *)

Definition M (S A : Type) : Type := S → except A * S.

Definition ret {S A} (a : A) : M S A := λ s, (Ok a, s).
Definition raise {S A} (e : exn) : M S A := λ s, (Raise e, s).
Definition bind {S A B} (m : M S A) (k : A → M S B) : M S B :=
  λ s, match m s with
       | (Ok a, s') => k a s'
       | (Raise e, s') => (Raise e, s')
       end.
(** An operation of the environment that changes the state or fails without
    changing it. *)
Definition lift {S} (f : S → except S) : M S unit :=
  λ s, match f s with
       | Ok s' => (Ok (), s')
       | Raise e => (Raise e, s)
       end.

Global Instance M_ret {S} : MRet (M S) := λ A, ret.
Global Instance M_bind {S} : MBind (M S) := λ A B k m, bind m k.

(** [for x in l: body(x)] *)
Fixpoint for_each {S A} (l : list A) (body : A → M S unit) : M S unit :=
  match l with
  | [] => ret ()
  | x :: l' => body x;; for_each l' body
  end.

(** ** Paths below a root directory

    Every path the managers form below [extracted_apk_dir] is that directory
    joined with a sequence of entry names.  A [path] keeps the two apart: the
    tree is addressed by the names, and [path_str] is the Python string. *)

Record path : Type := Path { base : string; names : list string }.

Global Instance path_eq_dec : EqDecision path.
Proof. solve_decision. Defined.

Definition root_of (directory : string) : path := Path directory [].

(** [join(p, name)] *)
Definition join (p : path) (name : string) : path :=
  Path (base p) (names p ++ [name]).

Definition path_str (p : path) : string := foldl Str.join (base p) (names p).

Module Tree.
Import FS.

(** The node a sequence of names leads to. *)
Fixpoint lookup (ns : list string) (n : node) : option node :=
  match ns with
  | [] => Some n
  | name :: ns' =>
      match n with
      | Dir es => child name es ≫= lookup ns'
      | File _ => None
      end
  end.

(** Runs [f] on the listing of the directory that [ns] leads to. *)
Fixpoint alter_dir (at_ : string) (ns : list string)
    (f : listing → except listing) (es : listing) : except listing :=
  match ns with
  | [] => f es
  | name :: ns' =>
      (fix go (es : listing) : except listing :=
         match es with
         | [] => Raise (FileNotFoundError at_)
         | (n, c) :: rest =>
             if decide (n = name) then
               match c with
               | Dir sub =>
                   ebind (alter_dir at_ ns' f sub) (λ sub', Ok ((n, Dir sub') :: rest))
               | File _ => Raise (NotADirectoryError at_)
               end
             else ebind (go rest) (λ rest', Ok ((n, c) :: rest'))
         end) es
  end.

(** The parent directory and the last name of a path. *)
Definition split_last (ns : list string) : list string * string :=
  (removelast ns, List.last ns "").

(** [os.path.exists(p)] *)
Definition exists_ (p : path) (es : listing) : bool :=
  bool_decide (is_Some (lookup (names p) (Dir es))).

(** [os.path.getsize(p)].  The code asks for the size of files only; for
    a directory the operating system reports the size of its entry, for
    which 4096 stands. *)
Definition getsize (p : path) (es : listing) : except N :=
  match lookup (names p) (Dir es) with
  | Some (File size) => Ok size
  | Some (Dir _) => Ok 4096%N
  | None => Raise (FileNotFoundError (path_str p))
  end.

(** [os.mkdir(p)]: the new directory comes last in its parent's listing. *)
Definition mkdir (p : path) : M listing unit :=
  lift (alter_dir (path_str p) (split_last (names p)).1
    (λ es, match child (split_last (names p)).2 es with
           | Some _ => Raise (FileExistsError (path_str p))
           | None => Ok (es ++ [((split_last (names p)).2, Dir [])])
           end)).

(** [shutil.rmtree(p)] *)
Definition rmtree (p : path) : M listing unit :=
  lift (alter_dir (path_str p) (split_last (names p)).1
    (λ es, match child (split_last (names p)).2 es with
           | Some (Dir _) => Ok (filter (λ e, e.1 ≠ (split_last (names p)).2) es)
           | Some (File _) => Raise (NotADirectoryError (path_str p))
           | None => Raise (FileNotFoundError (path_str p))
           end)).

(** A process creates or truncates the file [p] and leaves [size] bytes. *)
Definition write_file (p : path) (size : N) : M listing unit :=
  lift (alter_dir (path_str p) (split_last (names p)).1
    (λ es, match child (split_last (names p)).2 es with
           | Some (Dir _) => Raise (ExternalError (path_str p))
           | Some (File _) =>
               Ok ((λ e, if decide (e.1 = (split_last (names p)).2)
                         then (e.1, File size) else e) <$> es)
           | None => Ok (es ++ [((split_last (names p)).2, File size)])
           end)).

(** [os.walk(top)], top-down.  Each step yields [(dirpath, dirnames,
    filenames)] and then walks into the names of [dirnames] as the consumer
    of the generator left that list: [visit] is what the loop body does to
    [dirnames] in place.  A name that is no directory is skipped, as
    [os.walk] ignores the error of listing it.  [fuel] bounds the depth. *)
Fixpoint walk (visit : list string → list string) (fuel : nat)
    (top : path) (es : listing) : list (path * list string * list string) :=
  match fuel with
  | O => []
  | S fuel' =>
      let dirs := visit (dirnames es) in
      (top, dirs, filenames es) ::
      flat_map (λ d, match child d es with
                     | Some (Dir sub) => walk visit fuel' (join top d) sub
                     | _ => []
                     end) dirs
  end.

Definition os_walk (visit : list string → list string)
    (top : path) (es : listing) : list (path * list string * list string) :=
  walk visit (depth (Dir es)) top es.

(** A listing as a file system gives it: no name twice, in any directory
    below. *)
Fixpoint wf (n : node) : bool :=
  match n with
  | File _ => true
  | Dir es => bool_decide (NoDup es.*1) && forallb (λ e, wf e.2) es
  end.

End Tree.

(** ** ZipManager *)

(** An entry of [ZipFile.infolist()]. *)
Record ZipInfo : Type := { filename : string; compress_type : Z }.

Definition ZIP_STORED : Z := 0.
Definition ZIP_DEFLATED : Z := 8.

(** One call [new_apk.write(filepath, archivepath, compress_type=compress)]. *)
Record zip_write : Type :=
  ZipWrite { filepath : string; archivepath : string; compress : Z }.

Global Instance zip_write_eq_dec : EqDecision zip_write.
Proof. solve_decision. Defined.

Module ZipManager.

Record t : Type :=
  { input_apk : string; extracted_apk_dir : string; output_apk : string }.

(** The class attribute [per_file_compression = {}]: one dictionary for
    the class, which every instance reads and updates through [self]. *)
Abbreviation class_state := (gmap string Z).

Definition initial : class_state := ∅.

(** [__enter__], with [z.infolist()] as [infolist].  The files that
    [extractall] writes are not part of the state here: the tree that
    [__exit__] packs is the one the steps in between leave. *)
Definition __enter__ (self : t) (infolist : list ZipInfo)
    (per_file_compression : class_state) : class_state :=
  foldl (λ d info, <[filename info := compress_type info]> d)
        per_file_compression infolist.


(** [remove_signature_files(extracted_apk_dir)] for an [extracted_apk_dir]
    that is [plain_absolute]: the plain files listed in [META-INF] whose
    names do not start with a dot are removed. *)
Definition remove_signature_files (es : listing) : listing :=
  (λ e, match e with
        | (name, Dir sub) =>
            if decide (name = "META-INF")
            then (name, Dir (filter (λ c, FS.is_dir c.2 ∨ Str.startswith c.1 ".") sub))
            else e
        | _ => e
        end) <$> es.

(** The body of [for filename in sorted(filenames)]. *)
Definition write_entry (self : t) (per_file_compression : class_state)
    (dirpath : path) (filename : string) : zip_write :=
  let filepath := path_str (join dirpath filename) in
  let archivepath :=
    Str.drop (String.length (extracted_apk_dir self) + 1) filepath in
  let compress :=
    match per_file_compression !! archivepath with
    | Some c => c
    | None => ZIP_DEFLATED
    end in
  ZipWrite filepath archivepath compress.

(** The loop over [os.walk(dirpath)] with its body, on the tree [es] at
    [dirpath]: the calls of [new_apk.write], in order. *)
Definition write_under (self : t) (per_file_compression : class_state)
    (dirpath : path) (es : listing) : list zip_write :=
  flat_map (λ '(dirpath, _, filenames),
              write_entry self per_file_compression dirpath <$> sorted filenames)
           (Tree.os_walk sorted dirpath es).

(** The [with zipfile.ZipFile(self.output_apk, "w")] block of [__exit__] on
    the tree [es] below [extracted_apk_dir]. *)
Definition write_apk (self : t) (per_file_compression : class_state)
    (es : listing) : list zip_write :=
  write_under self per_file_compression (root_of (extracted_apk_dir self)) es.

(** [__exit__] for an [extracted_apk_dir] that is [plain_absolute]: the
    tree after the signature files are removed, and the entries of the new
    archive.  [output_apk] lies outside the extracted tree; removing an
    old file of that name changes nothing here. *)
Definition __exit__ (self : t) (per_file_compression : class_state)
    (es : listing) : listing * list zip_write :=
  let es' := remove_signature_files es in
  (es', write_apk self per_file_compression es').

End ZipManager.


(** ** LibraryManager *)

Module LibraryManager.

(** The instance: [temporary_libs_dir] is [None] until [__enter__] sets it. *)
Record t : Type :=
  { extracted_apk_dir : string; temporary_libs_dir : option path }.

(** The object and the tree below [extracted_apk_dir]. *)
Record state : Type := { self : t; tree : listing }.

Definition on_tree {A} (m : M listing A) : M state A :=
  λ s, let '(r, es) := m (tree s) in (r, {| self := self s; tree := es |}).

Definition set_temporary_libs_dir (d : path) : M state unit :=
  λ s, (Ok (), {| self := {| extracted_apk_dir := extracted_apk_dir (self s);
                             temporary_libs_dir := Some d |};
                  tree := tree s |}).

Definition xz_lib_name : string := "libs.xzs".
Definition zstd_lib_name : string := "libs.zstd".

(** [ensure_libs_dir(libs_dir, sub_dir)] *)
Definition ensure_libs_dir (libs_dir sub_dir : path) : M listing path :=
  λ es,
    (if Tree.exists_ libs_dir es then
       Tree.mkdir sub_dir;;
       mret sub_dir
     else
       Tree.mkdir libs_dir;;
       Tree.mkdir sub_dir;;
       mret libs_dir) es.

(** [fnmatch.filter(filenames, name)] for a pattern without wildcards. *)
Definition fnmatch_filter (filenames : list string) (name : string) : list string :=
  filter (λ f, f = name) filenames.

(** The second inner loop of the walk: the [libs.zstd] files of one
    directory that are not empty, appended to [libs_to_extract]. *)
Fixpoint zstd_loop (root : path) (matched : list string)
    (libs_to_extract : list path) : M listing (list path) :=
  match matched with
  | [] => mret libs_to_extract
  | filename :: rest =>
      let fullpath := join root filename in
      size ← (λ es, (Tree.getsize fullpath es, es));
      zstd_loop root rest
        (if (0 <? size)%N then libs_to_extract ++ [fullpath] else libs_to_extract)
  end.

(** The loop over [os.walk(self.extracted_apk_dir)]. *)
Fixpoint walk_loop (steps : list (path * list string * list string))
    (libs_to_extract : list path) : M listing (list path) :=
  match steps with
  | [] => mret libs_to_extract
  | (root, _, filenames) :: rest =>
      let libs_to_extract :=
        libs_to_extract ++ (join root <$> fnmatch_filter filenames xz_lib_name) in
      libs_to_extract ←
        zstd_loop root (fnmatch_filter filenames zstd_lib_name) libs_to_extract;
      walk_loop rest libs_to_extract
  end.

Definition find_libs (directory : string) : M listing (list path) :=
  λ es, walk_loop (Tree.os_walk id (root_of directory) es) [] es.

(** What running a shell command of [__enter__] comes to: exit status 0
    with [size] bytes in the file at its output path, or another status,
    for which [subprocess.check_call] raises [e], with what the program
    itself left at its output path, if anything. *)
Inductive outcome : Type :=
  | Done (size : N)
  | Failed (e : exn) (partial : option N).

Section extraction.
Variable decompress : string → outcome.

(** [subprocess.check_call(cmd, shell=True)].  With [redirected], [cmd]
    sends its output to [extract_path] with [>]: the shell creates that
    file before the program runs, so that the file is there, if only
    empty, after a failure too. *)
Definition check_call (cmd : string) (redirected : bool) (extract_path : path)
    : M listing unit :=
  match decompress cmd with
  | Done size => Tree.write_file extract_path size
  | Failed e partial =>
      match (if redirected then Some (default 0%N partial) else partial) with
      | Some size => Tree.write_file extract_path size;; raise e
      | None => raise e
      end
  end.

(** The loop over [libs_to_extract], from [lib_count]. *)
Fixpoint extract_loop (extracted_dir : path) (libs_to_extract : list path)
    (lib_count : nat) : M listing unit :=
  match libs_to_extract with
  | [] => mret ()
  | lib_to_extract :: rest =>
      let extract_path :=
        join extracted_dir ("lib_" +:+ pretty lib_count +:+ ".so") in
      let xz := Str.endswith (path_str lib_to_extract) xz_lib_name in
      let cmd :=
        if xz
        then "xz -d --stdout " +:+ path_str lib_to_extract +:+ " > "
             +:+ path_str extract_path
        else "zstd -d " +:+ path_str lib_to_extract +:+ " -o "
             +:+ path_str extract_path in
      check_call cmd xz extract_path;;
      extract_loop extracted_dir rest (lib_count + 1)
  end.

Definition __enter__ : M state unit :=
  λ s,
    (libs_to_extract ← on_tree (find_libs (extracted_apk_dir (self s)));
     if decide (0 < length libs_to_extract) then
       let libs_dir := join (root_of (extracted_apk_dir (self s))) "lib" in
       let extracted_dir := join libs_dir "__extracted_libs__" in
       d ← on_tree (ensure_libs_dir libs_dir extracted_dir);
       set_temporary_libs_dir d;;
       on_tree (extract_loop extracted_dir libs_to_extract 0)
     else mret ()) s.
End extraction.

Definition __exit__ : M state unit :=
  λ s,
    match temporary_libs_dir (self s) with
    | Some d => on_tree (Tree.rmtree d) s
    | None => (Ok (), s)
    end.

End LibraryManager.


(** ** Temporary directories: [make_temp_dir], [remove_temp_dirs],
    [with_temp_cleanup] *)

Module TempDirs.

(** The module-level list [temp_dirs] and the part of the machine the
    functions act on. *)
Record process (W : Type) : Type := { temp_dirs : list string; world : W }.
Arguments temp_dirs {W} _.
Arguments world {W} _.

Definition on_world {W A} (m : M W A) : M (process W) A :=
  λ s, let '(r, w) := m (world s) in (r, {| temp_dirs := temp_dirs s; world := w |}).

Section with_world.
Context {W : Type}.
(** [tempfile.mkdtemp(suffix)] and [shutil.rmtree(directory)] *)
Variable mkdtemp : string → M W string.
Variable rmtree : string → M W unit.

(** [temp_dirs.append(directory)] *)
Definition append_temp_dir (directory : string) : M (process W) unit :=
  λ s, (Ok (), {| temp_dirs := temp_dirs s ++ [directory]; world := world s |}).

Definition make_temp_dir (name : string) (debug : bool) : M (process W) string :=
  directory ← on_world (mkdtemp name);
  (if negb debug then append_temp_dir directory else mret ());;
  mret directory.

Definition remove_temp_dirs : M (process W) unit :=
  λ s, for_each (temp_dirs s) (λ directory, on_world (rmtree directory)) s.

(** [try: fn(); success = True  finally: if success: remove_temp_dirs()].
    An exception of [fn] leaves the [finally] block again once it is
    done, unless the block raised one of its own. *)
Definition with_temp_cleanup (fn : M (process W) unit) (always_clean : bool)
    : M (process W) unit :=
  λ s,
    let success := always_clean in
    let '(r, s1) := fn s in
    let success := match r with Ok _ => true | Raise _ => success end in
    let '(r_finally, s2) := (if success then remove_temp_dirs else mret ()) s1 in
    match r_finally with
    | Raise e' => (Raise e', s2)
    | Ok _ => (r, s2)
    end.
End with_world.

(** *** A machine whose state is the set of directories that exist *)

Abbreviation dirs := (gset string).

(** [mkdtemp] returns a directory that did not exist: the first free name
    of the form [/tmp/tmp<i><suffix>]. *)
Definition tmp_name (suffix : string) (i : nat) : string :=
  "/tmp/tmp" +:+ pretty i +:+ suffix.

Definition tmp_mkdtemp (suffix : string) : M dirs string :=
  λ w,
    let directory :=
      default (tmp_name suffix (size w))
              (head (filter (λ d, d ∉ w) (tmp_name suffix <$> seq 0 (S (size w))))) in
    (Ok directory, {[directory]} ∪ w).

Definition tmp_rmtree (directory : string) : M dirs unit :=
  λ w, if decide (directory ∈ w) then (Ok (), w ∖ {[directory]})
       else (Raise (FileNotFoundError directory), w).

End TempDirs.

(** ** UnpackManager *)

Module UnpackManager.
Import TempDirs.

(** [os.path.splitext(file_name)[1]]: from the last dot of the base name
    on, unless only dots come before it. *)
Fixpoint last_dot_suffix (s : string) : option string :=
  match s with
  | EmptyString => None
  | String c s' =>
      match last_dot_suffix s' with
      | Some ext => Some ext
      | None => if decide (c = Str.dot) then Some s else None
      end
  end.

Fixpoint strip_dots (s : string) : string :=
  match s with
  | String c s' => if decide (c = Str.dot) then strip_dots s' else s
  | EmptyString => EmptyString
  end.

Definition get_file_ext (file_name : string) : string :=
  match last_dot_suffix (strip_dots (Str.basename file_name)) with
  | Some ext => ext
  | None => ""
  end.

Definition get_dex_file_path (input_apk extracted_apk_dir : string) : string :=
  if decide (get_file_ext input_apk = ".aab")
  then Str.join (Str.join extracted_apk_dir "base") "dex"
  else extracted_apk_dir.

Definition str_bool (b : bool) : string := if b then "True" else "False".

Section with_unpacker.
(** The collaborators of [pyredex.unpacker] and of the operating system:
    the state [W] they act on, the dex modes and the application
    modules. *)
Context {W DexMode AppModule : Type}.
Variable detect_secondary_dex_mode : string → M W DexMode.
Variable dex_mode_type_name : DexMode → string.
Variable dex_mode_unpackage : DexMode → string → string → M W unit.
Variable dex_mode_repackage : DexMode → string → string → bool → bool → M W unit.
Variable ApplicationModule_detect : string → M W (list AppModule).
Variable get_name : AppModule → string.
Variable get_canary_prefix : AppModule → option string.
Variable module_unpackage : AppModule → string → string → M W unit.
Variable write_redex_metadata : AppModule → string → string → M W unit.
Variable module_repackage : AppModule → string → string → bool → nat → bool → M W unit.
Variable os_mkdir : string → M W unit.
Variable mkdtemp : string → M W string.

Record t : Type :=
  { input_apk : string;
    extracted_apk_dir : string;
    dex_dir : string;
    have_locators : bool;
    debug_mode : bool;
    fast_repackage : bool;
    dex_mode : option DexMode;
    application_modules : list AppModule }.

(** [UnpackManager(...)]: the class attribute [application_modules = []]
    is what an instance shows until [__enter__] assigns its own list. *)
Definition __init__ (input_apk extracted_apk_dir dex_dir : string)
    (have_locators debug_mode fast_repackage : bool) : t :=
  {| input_apk := input_apk; extracted_apk_dir := extracted_apk_dir;
     dex_dir := dex_dir; have_locators := have_locators;
     debug_mode := debug_mode; fast_repackage := fast_repackage;
     dex_mode := None; application_modules := [] |}.

(** The object, the process, and the lines logged so far. *)
Record state : Type :=
  { self : t; proc : process W; logged : list string }.

Definition log (line : string) : M state unit :=
  λ s, (Ok (), {| self := self s; proc := proc s;
                  logged := logged s ++ [line] |}).

Definition on_proc {A} (m : M (process W) A) : M state A :=
  λ s, let '(r, p) := m (proc s) in
       (r, {| self := self s; proc := p; logged := logged s |}).
Definition call {A} (m : M W A) : M state A := on_proc (on_world m).

Definition set_dex_mode (d : DexMode) : M state unit :=
  λ s, (Ok (), {| self :=
                    {| input_apk := input_apk (self s);
                       extracted_apk_dir := extracted_apk_dir (self s);
                       dex_dir := dex_dir (self s);
                       have_locators := have_locators (self s);
                       debug_mode := debug_mode (self s);
                       fast_repackage := fast_repackage (self s);
                       dex_mode := Some d;
                       application_modules := application_modules (self s) |};
                  proc := proc s; logged := logged s |}).

Definition set_application_modules (ms : list AppModule) : M state unit :=
  λ s, (Ok (), {| self :=
                    {| input_apk := input_apk (self s);
                       extracted_apk_dir := extracted_apk_dir (self s);
                       dex_dir := dex_dir (self s);
                       have_locators := have_locators (self s);
                       debug_mode := debug_mode (self s);
                       fast_repackage := fast_repackage (self s);
                       dex_mode := dex_mode (self s);
                       application_modules := ms |};
                  proc := proc s; logged := logged s |}).

Definition get_self : M state t := λ s, (Ok (self s), s).

(** The loop of [__enter__] over [self.application_modules]. *)
Fixpoint unpack_loop (me : t) (store_metadata_dir : string)
    (modules : list AppModule) (store_files : list string)
    : M state (list string) :=
  match modules with
  | [] => mret store_files
  | module :: rest =>
      let canary_prefix := get_canary_prefix module in
      log ("found module: " +:+ get_name module +:+ " "
           +:+ default "(no canary prefix)" canary_prefix);;
      let store_path := Str.join (dex_dir me) (get_name module) in
      call (os_mkdir store_path);;
      call (module_unpackage module (extracted_apk_dir me) store_path);;
      let store_metadata :=
        Str.join store_metadata_dir (get_name module +:+ ".json") in
      call (write_redex_metadata module store_path store_metadata);;
      unpack_loop me store_metadata_dir rest (store_files ++ [store_metadata])
  end.

Definition __enter__ : M state (list string) :=
  me ← get_self;
  let dex_file_path := get_dex_file_path (input_apk me) (extracted_apk_dir me) in
  mode ← call (detect_secondary_dex_mode dex_file_path);
  set_dex_mode mode;;
  log ("Detected dex mode " +:+ dex_mode_type_name mode);;
  log "Unpacking dex files";;
  call (dex_mode_unpackage mode dex_file_path (dex_dir me));;
  log "Detecting Application Modules";;
  store_metadata_dir ←
    on_proc (make_temp_dir mkdtemp ".application_module_metadata" (debug_mode me));
  modules ← call (ApplicationModule_detect (extracted_apk_dir me));
  set_application_modules modules;;
  unpack_loop me store_metadata_dir modules [].

(** The loop of [__exit__] over [self.application_modules]. *)
Fixpoint repack_loop (me : t) (modules : list AppModule)
    (locator_store_id : nat) : M state unit :=
  match modules with
  | [] => mret ()
  | module :: rest =>
      log ("repacking module: " +:+ get_name module +:+ " with id "
           +:+ pretty locator_store_id);;
      call (module_repackage module (extracted_apk_dir me) (dex_dir me)
              (have_locators me) locator_store_id (fast_repackage me));;
      repack_loop me rest (locator_store_id + 1)
  end.

Definition __exit__ : M state unit :=
  me ← get_self;
  log "Repacking dex files";;
  log ("Emit Locator Strings: " +:+ str_bool (have_locators me));;
  match dex_mode me with
  | None => raise (AttributeError "dex_mode")
  | Some mode =>
      let dex_file_path :=
        get_dex_file_path (input_apk me) (extracted_apk_dir me) in
      call (dex_mode_repackage mode dex_file_path (dex_dir me)
              (have_locators me) (fast_repackage me));;
      repack_loop me (application_modules me) 1
  end.
End with_unpacker.

(** *** Collaborators that keep a record of their calls *)

Section with_record.
Context {W DexMode AppModule : Type}.

(** A call of a collaborator with its arguments; a call that returns a
    value is recorded with what it returned or raised. *)
Inductive external_call : Type :=
  | DetectSecondaryDexMode (dex_file_path : string) (result : except DexMode)
  | DexUnpackage (mode : DexMode) (dex_file_path dex_dir : string)
  | DexRepackage (mode : DexMode) (dex_file_path dex_dir : string)
      (have_locators fast_repackage : bool)
  | Detect (extracted_apk_dir : string) (result : except (list AppModule))
  | ModuleUnpackage (module : AppModule) (extracted_apk_dir store_path : string)
  | WriteRedexMetadata (module : AppModule) (store_path store_metadata : string)
  | ModuleRepackage (module : AppModule) (extracted_apk_dir dex_dir : string)
      (have_locators : bool) (locator_store_id : nat) (fast_repackage : bool)
  | OsMkdir (path : string)
  | Mkdtemp (suffix : string) (result : except string).

(** The collaborator [m] on a machine that also holds the record of the
    calls: whatever [m] does and returns, its call is added at the end. *)
Definition recording {A} (entry : except A → external_call) (m : M W A)
    : M (W * list external_call) A :=
  λ wc, let '(r, w) := m wc.1 in (r, (w, wc.2 ++ [entry r])).

Variable detect_secondary_dex_mode : string → M W DexMode.
Variable dex_mode_type_name : DexMode → string.
Variable dex_mode_unpackage : DexMode → string → string → M W unit.
Variable dex_mode_repackage : DexMode → string → string → bool → bool → M W unit.
Variable ApplicationModule_detect : string → M W (list AppModule).
Variable get_name : AppModule → string.
Variable get_canary_prefix : AppModule → option string.
Variable module_unpackage : AppModule → string → string → M W unit.
Variable write_redex_metadata : AppModule → string → string → M W unit.
Variable module_repackage : AppModule → string → string → bool → nat → bool → M W unit.
Variable os_mkdir : string → M W unit.
Variable mkdtemp : string → M W string.

(** [__enter__] and [__exit__] with every collaborator recording. *)
Definition recording_enter
    : M (@state (W * list external_call) DexMode AppModule) (list string) :=
  __enter__
    (λ p, recording (DetectSecondaryDexMode p) (detect_secondary_dex_mode p))
    dex_mode_type_name
    (λ mode p d, recording (λ _, DexUnpackage mode p d) (dex_mode_unpackage mode p d))
    (λ d, recording (Detect d) (ApplicationModule_detect d))
    get_name get_canary_prefix
    (λ m a p, recording (λ _, ModuleUnpackage m a p) (module_unpackage m a p))
    (λ m p f, recording (λ _, WriteRedexMetadata m p f) (write_redex_metadata m p f))
    (λ p, recording (λ _, OsMkdir p) (os_mkdir p))
    (λ n, recording (Mkdtemp n) (mkdtemp n)).

Definition recording_exit
    : M (@state (W * list external_call) DexMode AppModule) unit :=
  __exit__
    (λ mode p d l f, recording (λ _, DexRepackage mode p d l f)
                       (dex_mode_repackage mode p d l f))
    get_name
    (λ m a d l i f, recording (λ _, ModuleRepackage m a d l i f)
                      (module_repackage m a d l i f)).

(** The calls recorded so far. *)
Definition calls (s : @state (W * list external_call) DexMode AppModule)
    : list external_call :=
  (world (proc s)).2.

(** The modules that a record shows being repacked, with their ids. *)
Definition repacked (record : list external_call) : list (AppModule * nat) :=
  omap (λ c, match c with
             | ModuleRepackage m _ _ _ i _ => Some (m, i)
             | _ => None
             end) record.

(** The lists of modules that a record shows being detected. *)
Definition detected (record : list external_call) : list (list AppModule) :=
  omap (λ c, match c with Detect _ (Ok ms) => Some ms | _ => None end) record.

(** The modules that a record shows being unpacked. *)
Definition unpacked (record : list external_call) : list AppModule :=
  omap (λ c, match c with ModuleUnpackage m _ _ => Some m | _ => None end)
       record.
End with_record.

End UnpackManager.

(** ** [remove_comments_from_line] and [remove_comments] *)

Module Comments.

Definition backslash : ascii := "092"%char.
Definition dquote : ascii := "034"%char.
Definition hash : ascii := "#"%char.

(** The loop of [remove_comments_from_line] from some index on, with the
    two flags as they stand there: what is kept of the rest of the line.
    [return l[:idx]] keeps nothing from the index on, the end of the loop
    keeps all. *)
Fixpoint scan (found_backslash in_quote : bool) (l : string) : string :=
  match l with
  | EmptyString => EmptyString
  | String c rest =>
      if bool_decide (c = backslash) && negb found_backslash
      then String c (scan true in_quote rest)
      else if bool_decide (c = dquote) && negb found_backslash
      then String c (scan false (negb in_quote) rest)
      else if bool_decide (c = hash) && negb in_quote
      then EmptyString
      else String c (scan false in_quote rest)
  end.

Definition remove_comments_from_line (l : string) : string :=
  scan false false l.

(** ["".join([remove_comments_from_line(l) + "\n" for l in lines])] *)
Definition remove_comments (lines : list string) : string :=
  foldr (λ l acc, (remove_comments_from_line l +:+ String Str.newline "") +:+ acc)
        "" lines.

End Comments.

(** ** [argparse_yes_no_flag] *)

Module Flags.

(** What [parser.add_argument] is given, and the [off_prefix] that the
    class [FlagAction] reads from the enclosing call. *)
Record argument : Type :=
  { option_strings : list string;
    dest : string;
    default : bool;
    off_prefix_of : string }.

Definition argparse_yes_no_flag (flag_name on_prefix off_prefix : string)
    : argument :=
  {| option_strings := ["--" +:+ on_prefix +:+ flag_name;
                        "--" +:+ off_prefix +:+ flag_name];
     dest := flag_name;
     default := false;
     off_prefix_of := off_prefix |}.

(** [FlagAction.__call__]: [setattr(namespace, self.dest, ...)] for the
    option string that the parser found. *)
Definition FlagAction_call (a : argument) (namespace : gmap string bool)
    (option_string : string) : gmap string bool :=
  <[dest a := if Str.startswith option_string ("--" +:+ off_prefix_of a)
              then false else true]> namespace.

End Flags.

(** ** [find_android_build_tools] *)

Module BuildTools.
Import Str.

(** What the function can raise: the missing key of [os.environ], [max]
    of an empty sequence, and what [os.listdir] raises. *)
Inductive raised : Type :=
  | MissingKey (key : string)
  | ValueError (msg : string)
  | OSError (e : exn).

(** [\d+] at the start of [s], and what follows it. *)
Definition digits_then (s : string) : option (string * string) :=
  match Dex.digit_run s with
  | EmptyString => None
  | ds => Some (ds, drop (String.length ds) s)
  end.

(** [re.match(r"\d+\.\d+\.\d+$", d)] and, for a name that matches, the
    version [distutils.version.StrictVersion(d)] parses: three numbers.
    [$] is the end of the name or the place before a newline that ends it. *)
Definition version_of (d : string) : option (N * N * N) :=
  match digits_then d with
  | Some (major, String c1 r1) =>
      if bool_decide (c1 = dot) then
        match digits_then r1 with
        | Some (minor, String c2 r2) =>
            if bool_decide (c2 = dot) then
              match digits_then r2 with
              | Some (patch, rest) =>
                  if bool_decide (rest = "" ∨ rest = String newline "")
                  then Some (int_of_digits major, int_of_digits minor,
                             int_of_digits patch)
                  else None
              | None => None
              end
            else None
        | _ => None
        end
      else None
  | _ => None
  end.

(** The order of [StrictVersion] on such versions: that of the tuples. *)
Definition version_lt (v w : N * N * N) : bool :=
  let '(a1, b1, c1) := v in
  let '(a2, b2, c2) := w in
  (a1 <? a2)%N
  || ((a1 =? a2)%N && ((b1 <? b2)%N || ((b1 =? b2)%N && (c1 <? c2)%N))).

(** [max(names, key=...)] on the names that have a version: the first name
    that no later one exceeds. *)
Fixpoint max_from (best : string * (N * N * N))
    (rest : list (string * (N * N * N))) : string :=
  match rest with
  | [] => best.1
  | x :: rest' => max_from (if version_lt best.2 x.2 then x else best) rest'
  end.

Definition versioned (names : list string) : list (string * (N * N * N)) :=
  omap (λ d, (λ v, (d, v)) <$> version_of d) names.

(** [environ] is [os.environ], [listdir] is [os.listdir]. *)
Definition find_android_build_tools (environ : gmap string string)
    (listdir : string → except (list string)) : raised + string :=
  match environ !! "ANDROID_SDK" with
  | None => inl (MissingKey "ANDROID_SDK")
  | Some android_home =>
      let build_tools := join android_home "build-tools" in
      match listdir build_tools with
      | Raise e => inl (OSError e)
      | Ok names =>
          match versioned names with
          | [] => inl (ValueError "max() arg is an empty sequence")
          | first :: rest => inr (join build_tools (max_from first rest))
          end
      end
  end.

End BuildTools.

(** ** [abs_glob] *)

Module Glob.
Import Str.

(** [glob.glob(join(directory, pattern))] for a pattern of one component
    that does not start with a dot, over the listing of [directory], for
    a directory name that [glob] takes as it is written
    ([Dex.listed_literally]); [matches] is [fnmatch] against the
    pattern. *)
Definition glob (matches : string → bool) (directory : string)
    (es : listing) : list string :=
  join directory <$> filter (λ n, matches n && negb (startswith n ".")) es.*1.

(** The generator [abs_glob(directory, pattern)], as the list it yields. *)
Definition abs_glob_with (matches : string → bool) (directory : string)
    (es : listing) : list string :=
  join directory <$> glob matches directory es.

(** [abs_glob(directory)], with the default pattern ["*"]. *)
Definition abs_glob (directory : string) (es : listing) : list string :=
  abs_glob_with (λ _, true) directory es.

End Glob.

(** ** [move_dexen_to_directories] *)

Module DexDirs.
Import Str.

Section with_os.
Context {W : Type}.
(** [os.mkdir(path)] and [shutil.move(src, dst)] *)
Variable os_mkdir : string → M W unit.
Variable shutil_move : string → string → M W unit.

(** The loop over [enumerate(dexpaths)] from the index [idx]. *)
Fixpoint move_loop (root : string) (idx : nat) (dexpaths : list string)
    (res : list string) : M W (list string) :=
  match dexpaths with
  | [] => mret res
  | dexpath :: rest =>
      let dexname := basename dexpath in
      let dirpath := join root ("dex" +:+ pretty idx) in
      os_mkdir dirpath;;
      shutil_move dexpath dirpath;;
      move_loop root (S idx) rest (res ++ [join dirpath dexname])
  end.

Definition move_dexen_to_directories (root : string)
    (dexpaths : list string) : M W (list string) :=
  move_loop root 0 dexpaths [].
End with_os.

(** *** An operating system that records the calls it gets *)

Inductive os_call : Type :=
  | Mkdir (path : string)
  | Move (src dst : string).

Definition record_mkdir (path : string) : M (list os_call) unit :=
  λ calls, (Ok (), calls ++ [Mkdir path]).
Definition record_move (src dst : string) : M (list os_call) unit :=
  λ calls, (Ok (), calls ++ [Move src dst]).

End DexDirs.

(** * Vocabulary of the properties and example data *)

Section str_vocabulary.
Import Str.

(** A string that is empty or ends with a slash: what [join] puts before
    the name it appends. *)
Definition dir_prefix (q : string) : Prop := q = "" ∨ endswith q "/" = true.

End str_vocabulary.

Section sort_vocabulary.

(** The order of the keys, on the elements. *)
Definition key_le {A : Type} (key : A → N) (x y : A) : Prop := (key x ≤ key y)%N.

End sort_vocabulary.

Section dex_vocabulary.
Import Str Dex.

Definition digit_next (s : string) : bool :=
  match s with
  | String c _ => is_digit c
  | EmptyString => false
  end.

(** [s] starts with [classes] or with a hyphen, and a digit follows. *)
Definition marker_here (s : string) : bool :=
  (startswith s "classes" && digit_next (drop 7 s))
  || (startswith s "-" && digit_next (drop 1 s)).

(** Somewhere in [s], digits follow the string [classes] or a hyphen. *)
Fixpoint has_numbered_marker (s : string) : bool :=
  marker_here s
  || match s with
     | EmptyString => false
     | String _ s' => has_numbered_marker s'
     end.

End dex_vocabulary.

Section dex_glob_vocabulary.
Import Str Dex.

(** The key of a path whose name has one. *)
Definition dex_number (d : string) : N :=
  match extract_dex_number d with
  | Ok k => k
  | Raise _ => 0%N
  end.

Definition has_key (d : string) : Prop := is_ok (extract_dex_number d) = true.

End dex_glob_vocabulary.

Section dex_examples.
Import Str Dex.


Definition example_dir : listing :=
  [("classes10.dex", File 40); ("foo-3.dex", File 30);
   ("classes.dex", File 10); ("classes2.dex", File 20)]%N.

Definition only_secondary_dir : listing := [("classes2.dex", File 20%N)].


Definition shadowed_dir : listing :=
  [("classes2.dex", File 20); ("classes.dex", File 10)]%N.

(** A file system in which no directory matches a pattern. *)
Definition nothing_found : string → list (string * option listing) := λ _, [].

End dex_examples.

Section temp_dirs_vocabulary.
Import TempDirs.

(** A function that registers one temporary directory and fails. *)
Definition failing_fn : M (process dirs) unit :=
  make_temp_dir tmp_mkdtemp "" false;;
  raise (Exception "boom").

Definition fresh_process : process dirs := {| temp_dirs := []; world := ∅ |}.

End temp_dirs_vocabulary.

Section tree_vocabulary.
Import FS Tree.



End tree_vocabulary.

Section zip_vocabulary.
Import FS Tree ZipManager.

(** The entries written for a walk with a given fuel. *)
Definition written (self : ZipManager.t) (pfc : gmap string Z)
    (fuel : nat) (top : path) (es : listing) : list zip_write :=
  flat_map (λ '(dirpath, _, filenames), write_entry self pfc dirpath <$> sorted filenames)
           (walk sorted fuel top es).




End zip_vocabulary.

Section signature_files_vocabulary.
Import FS Tree ZipManager.


End signature_files_vocabulary.

Section same_tree_vocabulary.
Import FS Tree.


End same_tree_vocabulary.

Section zip_examples.
Import FS Tree ZipManager.

(** The method recorded for a path when the archive was read: that of the
    last entry of the archive with that name. *)
Definition recorded (infolist : list ZipInfo) (name : string) : option Z :=
  compress_type <$> last (filter (λ info, filename info = name) infolist).

Definition first_manager : ZipManager.t :=
  {| input_apk := "first.apk"; extracted_apk_dir := "/tmp/first";
     output_apk := "first-out.apk" |}.
Definition first_infolist : list ZipInfo :=
  [ {| filename := "classes.dex"; compress_type := ZIP_DEFLATED |};
    {| filename := "lib/libfoo.so"; compress_type := ZIP_STORED |} ].

Definition second_manager : ZipManager.t :=
  {| input_apk := "second.apk"; extracted_apk_dir := "/tmp/second";
     output_apk := "second-out.apk" |}.
Definition second_infolist : list ZipInfo :=
  [ {| filename := "classes.dex"; compress_type := ZIP_DEFLATED |} ].
Definition second_tree : listing :=
  [("lib", Dir [("libfoo.so", File 4096)]); ("classes.dex", File 1024)]%N.



End zip_examples.

Section tree_update_vocabulary.
Import FS Tree.

(** The listing with the first entry called [name] set to [c]. *)
Fixpoint replace_child (name : string) (c : node) (es : listing) : listing :=
  match es with
  | [] => []
  | (n, x) :: rest =>
      if decide (n = name) then (n, c) :: rest
      else (n, x) :: replace_child name c rest
  end.

(** The files of a tree all pass a test on their name and size. *)
Fixpoint all_files (P : string → N → bool) (n : node) : bool :=
  match n with
  | File _ => true
  | Dir es =>
      forallb (λ e, match e.2 with
                    | File size => P e.1 size
                    | Dir _ => all_files P e.2
                    end) es
  end.

End tree_update_vocabulary.

Section library_manager_vocabulary.
Import FS Tree LibraryManager.

(** A file that gives nothing to expand: it is not an xz blob, and if it is
    a zstd blob it is empty. *)
Definition no_payload (name : string) (size : N) : bool :=
  bool_decide (name ≠ xz_lib_name)
  && bool_decide (name = zstd_lib_name → size = 0%N).

(** What the walk appends for a file [f] of the directory [root]. *)
Definition queued_from (es : listing) (root : path) (f : string) (p : path) : Prop :=
  p = join root f
  ∧ (f = xz_lib_name
     ∨ (f = zstd_lib_name ∧ ∃ size, getsize p es = Ok size ∧ (0 < size)%N)).

End library_manager_vocabulary.

Section library_manager_dirs_vocabulary.
Import FS Tree LibraryManager.

(** The tree with the scratch directory [x] in the directory [name]. *)
Definition with_scratch (name x : string) (les fs es0 : listing) : listing :=
  replace_child name (Dir (les ++ [(x, Dir fs)])) es0.

End library_manager_dirs_vocabulary.

Section library_manager_examples.
Import FS Tree LibraryManager.

Definition lib_tree : listing :=
  [("lib", Dir [("armeabi", Dir [("libfoo.so", File 900)])]);
   ("assets", Dir [("libs.xzs", File 10); ("x", Dir [("libs.zstd", File 3)])])]%N.

Definition placeholder_tree : listing :=
  [("assets", Dir [("lib-main", Dir [("libs.zstd", File 0)]);
                   ("lib-zstd", Dir [("libs.zstd", File 0)])]);
   ("classes.dex", File 1024)]%N.

Definition new_manager : LibraryManager.t :=
  {| extracted_apk_dir := "/tmp/apk"; temporary_libs_dir := None |}.

Definition always_decompressed : string → outcome := λ _, Done 4096%N.

End library_manager_examples.

Section unpack_manager_example_vocabulary.
Import TempDirs UnpackManager.

(** A run with collaborators that always succeed and three modules,
    detected in an order that is not the alphabetical one. *)
Definition demo_modules : list string := ["zeta"; "alpha"; "mid"].

Definition demo_mkdtemp (suffix : string) : M unit string :=
  mret ("/tmp/tmp0" +:+ suffix).

Definition demo_enter : M (@UnpackManager.state unit unit string) (list string) :=
  __enter__ (λ _, mret ()) (λ _, "Api21DexMode") (λ _ _ _, mret ())
    (λ _, mret demo_modules) id (λ _, None) (λ _ _ _, mret ())
    (λ _ _ _, mret ()) (λ _, mret ()) demo_mkdtemp.

Definition demo_exit : M (@UnpackManager.state unit unit string) unit :=
  __exit__ (λ _ _ _ _ _, mret ()) id (λ _ _ _ _ _ _, mret ()).

Definition demo_start : @UnpackManager.state unit unit string :=
  {| self := __init__ "app.apk" "/tmp/apk" "/tmp/dex" true false false;
     proc := {| temp_dirs := []; world := () |};
     logged := [] |}.

(** The same run with collaborators that record their calls. *)
Definition demo_recording_enter
    : M (@UnpackManager.state (unit * list (@external_call unit string)) unit string)
        (list string) :=
  recording_enter (λ _, mret ()) (λ _, "Api21DexMode") (λ _ _ _, mret ())
    (λ _, mret demo_modules) id (λ _, None) (λ _ _ _, mret ())
    (λ _ _ _, mret ()) (λ _, mret ()) demo_mkdtemp.

Definition demo_recording_exit
    : M (@UnpackManager.state (unit * list (@external_call unit string)) unit string)
        unit :=
  recording_exit (λ _ _ _ _ _, mret ()) id (λ _ _ _ _ _ _, mret ()).

Definition demo_recording_start
    : @UnpackManager.state (unit * list (@external_call unit string)) unit string :=
  {| self := __init__ "app.apk" "/tmp/apk" "/tmp/dex" true false false;
     proc := {| temp_dirs := []; world := ((), []) |};
     logged := [] |}.

End unpack_manager_example_vocabulary.

Section decimal_vocabulary.
Import Str Dex.

(** [int_of_digits] from a number already read. *)
Fixpoint int_from (acc : N) (s : string) : N :=
  match s with
  | EmptyString => acc
  | String c s' => int_from (10 * acc + digit_value c)%N s'
  end.

End decimal_vocabulary.

Section build_tools_vocabulary.
Import Str BuildTools.

(** [v < w] on versions, number by number. *)
Definition version_below (v w : N * N * N) : Prop :=
  (v.1.1 < w.1.1
   ∨ v.1.1 = w.1.1 ∧ (v.1.2 < w.1.2 ∨ v.1.2 = w.1.2 ∧ v.2 < w.2))%N.

End build_tools_vocabulary.

Section dex_dirs_vocabulary.
Import Str DexDirs.

(** Where [move_dexen_to_directories] puts the dex file of index [idx]. *)
Definition moved_to (root : string) (idx : nat) (dexpath : string) : string :=
  Str.join (Str.join root ("dex" +:+ pretty idx)) (basename dexpath).

End dex_dirs_vocabulary.

Section dex_dirs_distinct_vocabulary.
Import Str DexDirs.

(** [directory] as the start of the path of an entry. *)
Definition with_slash (directory : string) : string :=
  if decide (directory = "") then ""
  else if endswith directory "/" then directory
  else directory +:+ "/".

End dex_dirs_distinct_vocabulary.

Section zip_entries_vocabulary.
Import FS Tree ZipManager.


End zip_entries_vocabulary.

Section archive_names_vocabulary.
Import FS Tree ZipManager.

(** A name as a directory entry has it: not empty, without a slash. *)
Definition entry_name (n : string) : Prop := n ≠ "" ∧ Str.contains Str.slash n = false.

End archive_names_vocabulary.

Section signature_vocabulary.
Import FS Tree ZipManager.


End signature_vocabulary.

Section library_manager_queue_vocabulary.
Import FS Tree LibraryManager.


End library_manager_queue_vocabulary.

Section library_manager_failures_vocabulary.
Import FS Tree LibraryManager.


End library_manager_failures_vocabulary.

(** * Properties *)

(** ** Strings and paths *)

Section str_facts.
Import Str.

Lemma app_cons a s t : String a s +:+ t = String a (s +:+ t).
Proof. reflexivity. Qed.

Lemma app_empty_l t : "" +:+ t = t.
Proof. reflexivity. Qed.

Lemma app_empty_r s : s +:+ "" = s.
Proof. induction s as [|a s IH]; [done|]. by rewrite app_cons, IH. Qed.

Lemma app_assoc_str s t u : (s +:+ t) +:+ u = s +:+ t +:+ u.
Proof. induction s as [|a s IH]; [done|]. by rewrite !app_cons, IH. Qed.

Lemma drop_app pre t : drop (String.length pre) (pre +:+ t) = t.
Proof.
  induction pre as [|b pre IH]; [done|].
  rewrite app_cons. cbn [String.length drop]. apply IH.
Qed.

Lemma startswith_empty s : startswith s "" = true.
Proof. by destruct s. Qed.

Lemma startswith_app s pre : startswith (pre +:+ s) pre = true.
Proof.
  induction pre as [|a pre IH]; [by destruct s|].
  rewrite app_cons. cbn [startswith]. by case_decide.
Qed.

Lemma startswith_inv s pre :
  startswith s pre = true → s = pre +:+ drop (String.length pre) s.
Proof.
  revert s. induction pre as [|a pre IH]; intros s H; [done|].
  destruct s as [|b s]; [done|]. simpl in H.
  destruct (decide (a = b)) as [->|]; [|done].
  rewrite app_cons. simpl. f_equal. by apply IH.
Qed.

Lemma endswith_refl s : endswith s s = true.
Proof. destruct s; cbn [endswith]; by destruct (decide _). Qed.

Lemma endswith_app s suf : endswith (s +:+ suf) suf = true.
Proof.
  induction s as [|a s IH].
  - rewrite app_empty_l. apply endswith_refl.
  - rewrite app_cons. cbn [endswith]. rewrite IH. by destruct (decide _).
Qed.

Lemma endswith_inv s suf : endswith s suf = true → ∃ pre, s = pre +:+ suf.
Proof.
  induction s as [|a s IH]; simpl; intros H.
  - destruct (decide ("" = suf)) as [<-|]; [by exists ""|done].
  - destruct (decide (String a s = suf)) as [<-|]; [by exists ""|].
    destruct (IH H) as [pre ->]. by exists (String a pre).
Qed.

Lemma contains_app c s t : contains c (s +:+ t) = contains c s || contains c t.
Proof.
  induction s as [|a s IH]; [done|].
  rewrite app_cons. simpl. by destruct (decide (a = c)).
Qed.

Lemma endswith_slash_contains q : endswith q "/" = true → contains slash q = true.
Proof.
  intros [pre ->]%endswith_inv. rewrite contains_app. simpl.
  by rewrite orb_true_r.
Qed.

Lemma join_shape d n :
  contains slash n = false →
  ∃ q, join d n = q +:+ n ∧ dir_prefix q.
Proof.
  intros Hn. unfold join.
  assert (startswith n "/" = false) as ->.
  { destruct n as [|a n]; [done|]. simpl in *.
    destruct (decide ("/"%char = a)) as [<-|]; [|done].
    by case_decide. }
  destruct (decide (d = "")) as [->|Hd].
  { exists "". split; [done|by left]. }
  destruct (endswith d "/") eqn:He.
  - exists d. split; [done|by right].
  - exists (d +:+ "/"). split; [by rewrite app_assoc_str|].
    right. apply endswith_app.
Qed.

Lemma basename_no_slash n : contains slash n = false → basename n = n.
Proof.
  destruct n as [|a n]; [done|]. simpl.
  destruct (decide (a = slash)); [done|]. by intros ->.
Qed.

Lemma basename_prefixed q n :
  dir_prefix q → contains slash n = false → basename (q +:+ n) = n.
Proof.
  intros Hq Hn. destruct Hq as [->|Hq]; [by apply basename_no_slash|].
  induction q as [|a q IH]; [done|].
  rewrite app_cons. simpl in *.
  destruct (decide (String a q = "/")) as [[= -> ->]|Hne].
  - rewrite app_empty_l, Hn. by case_decide.
  - rewrite contains_app, (endswith_slash_contains q Hq). simpl. by apply IH.
Qed.

Lemma basename_join d n : contains slash n = false → basename (join d n) = n.
Proof.
  intros Hn. destruct (join_shape d n Hn) as (q & -> & Hq).
  by apply basename_prefixed.
Qed.

Lemma endswith_prefixed q n suf :
  dir_prefix q → contains slash suf = false →
  endswith (q +:+ n) suf = endswith n suf.
Proof.
  intros Hq Hsuf. destruct Hq as [->|Hq]; [done|].
  induction q as [|a q IH]; [done|].
  rewrite app_cons. simpl in *.
  destruct (decide (String a q = "/")) as [[= -> ->]|Hne].
  - rewrite app_empty_l. case_decide as E; [|done].
    by rewrite <-E in Hsuf.
  - case_decide as E; [|by apply IH].
    rewrite <-E in Hsuf. simpl in Hsuf. destruct (decide (a = slash)); [done|].
    by rewrite contains_app, (endswith_slash_contains q Hq) in Hsuf.
Qed.


Lemma endswith_join_any d n suf :
  contains slash suf = false → endswith (join d n) suf = endswith n suf.
Proof.
  intros Hsuf. unfold join. destruct (startswith n "/"); [done|].
  destruct (decide (d = "")) as [->|Hd]; [done|].
  destruct (endswith d "/") eqn:He.
  - apply endswith_prefixed; [by right|done].
  - rewrite <-app_assoc_str. apply endswith_prefixed; [|done].
    right. apply endswith_app.
Qed.

Lemma join_inj d n1 n2 :
  contains slash n1 = false → contains slash n2 = false →
  join d n1 = join d n2 → n1 = n2.
Proof.
  intros H1 H2 E. by rewrite <-(basename_join d n1), <-(basename_join d n2), E.
Qed.
End str_facts.

(** ** Sorting *)

Section sort_facts.
Context {A : Type} (key : A → N).

Lemma insert_by_perm x l : insert_by key x l ≡ₚ x :: l.
Proof.
  induction l as [|y l IH]; [done|]. simpl.
  destruct (key x <=? key y)%N; [done|].
  rewrite IH. apply Permutation_swap.
Qed.

Lemma sort_by_perm l : sort_by key l ≡ₚ l.
Proof.
  induction l as [|x l IH]; [done|].
  unfold sort_by in *. simpl. by rewrite insert_by_perm, IH.
Qed.

Lemma insert_by_sorted x l :
  StronglySorted (key_le key) l → StronglySorted (key_le key) (insert_by key x l).
Proof.
  induction 1 as [|y l Hl IH Hy]; simpl.
  { repeat constructor. }
  destruct (N.leb_spec (key x) (key y)) as [Hxy|Hxy].
  - constructor; [by constructor|].
    constructor; [done|].
    eapply Forall_impl; [exact Hy|]. unfold key_le. intros z ?. lia.
  - constructor; [done|].
    rewrite insert_by_perm. constructor; [unfold key_le; lia|done].
Qed.

Lemma sort_by_sorted l : StronglySorted (key_le key) (sort_by key l).
Proof.
  induction l as [|x l IH]; [constructor|].
  unfold sort_by in *. simpl. by apply insert_by_sorted.
Qed.

(** Sorting pairs of a key and an element by the first component sorts the
    elements by their keys. *)
Lemma insert_by_decorated x l :
  insert_by fst (key x, x) ((λ y, (key y, y)) <$> l)
  = (λ y, (key y, y)) <$> insert_by key x l.
Proof.
  induction l as [|y l IH]; [done|]. csimpl.
  destruct (key x <=? key y)%N; [done|]. csimpl. by rewrite IH.
Qed.

Lemma sort_by_decorated l :
  (sort_by fst ((λ y, (key y, y)) <$> l)).*2 = sort_by key l.
Proof.
  assert (sort_by fst ((λ y, (key y, y)) <$> l)
          = (λ y, (key y, y)) <$> sort_by key l) as ->.
  { induction l as [|x l IH]; [done|].
    unfold sort_by in *. csimpl. by rewrite IH, insert_by_decorated. }
  rewrite <-list_fmap_compose. apply list_fmap_id.
Qed.
End sort_facts.

(** ** Dex discovery *)

Section dex_facts.
Import Str Dex.

(** *** When the regular expression has a match *)


Lemma has_numbered_marker_spec s :
  has_numbered_marker s = true ↔
  ∃ pre c post, is_digit c = true ∧
    (s = pre +:+ "classes" +:+ String c post ∨ s = pre +:+ "-" +:+ String c post).
Proof.
  split.
  - induction s as [|a s IH]; [done|]. cbn [has_numbered_marker].
    + intros [H|H]%orb_true_iff.
      * exists "". unfold marker_here in H.
        apply orb_true_iff in H as [[H1 H2]%andb_true_iff|[H1 H2]%andb_true_iff];
          apply startswith_inv in H1; simpl String.length in H1;
          destruct (drop _ (String a s)) as [|c post]; try done;
          exists c, post; (split; [done|]); rewrite app_empty_l; auto.
      * destruct (IH H) as (pre & c & post & Hc & [->| ->]);
          exists (String a pre), c, post; auto.
  - intros (pre & c & post & Hc & H).
    assert (marker_here (drop (String.length pre) s) = true) as Hm.
    { unfold marker_here. apply orb_true_iff.
      destruct H as [-> | ->]; rewrite drop_app; [left|right];
        by rewrite startswith_app. }
    clear H. revert s Hm. induction pre as [|b pre IHp]; intros s Hm.
    + destruct s; cbn [String.length drop has_numbered_marker] in *; by rewrite Hm.
    + destruct s as [|a s]; [done|]. cbn [String.length drop] in Hm.
      cbn [has_numbered_marker]. rewrite (IHp s Hm). apply orb_true_r.
Qed.






End dex_facts.

Section dex_glob_facts.
Import Str Dex.
Variable found : string → list (string * option listing).

Lemma emap_decorate l :
  Forall has_key l →
  emap (λ d, ebind (extract_dex_number d) (λ k, Ok (k, d))) l
  = Ok ((λ d, (dex_number d, d)) <$> l).
Proof.
  induction 1 as [|d l Hd _ IH]; [done|].
  cbn [emap]. rewrite IH, fmap_cons. unfold has_key, dex_number in *.
  destruct (extract_dex_number d); [reflexivity|done].
Qed.

Lemma emap_decorate_inv l keyed :
  emap (λ d, ebind (extract_dex_number d) (λ k, Ok (k, d))) l = Ok keyed →
  Forall has_key l.
Proof.
  revert keyed. induction l as [|d l IH]; intros keyed H; [constructor|].
  cbn [emap] in H. unfold has_key.
  destruct (extract_dex_number d) eqn:E; [|done]. cbn [ebind] in H.
  destruct (emap _ l) eqn:E'; [|done].
  constructor; [by rewrite E|by eapply IH].
Qed.

Lemma sort_with_key_ok l :
  Forall has_key l →
  sort_with_key extract_dex_number l = Ok (sort_by dex_number l).
Proof.
  intros H. unfold sort_with_key. rewrite (emap_decorate l H). cbn [ebind].
  by rewrite sort_by_decorated.
Qed.

Lemma sort_with_key_inv l r :
  sort_with_key extract_dex_number l = Ok r →
  Forall has_key l ∧ r = sort_by dex_number l.
Proof.
  intros H. assert (Forall has_key l) as Hl.
  { unfold sort_with_key in H.
    destruct (emap _ l) eqn:E; [|done]. by eapply emap_decorate_inv. }
  split; [done|]. rewrite (sort_with_key_ok l Hl) in H. congruence.
Qed.

Lemma dex_glob_ok directory es :
  FS.isfile es "classes.dex" = true →
  Forall has_key (secondaries found directory es) →
  dex_glob found directory es
  = Ok (join directory "classes.dex"
          :: sort_by dex_number (secondaries found directory es)).
Proof.
  intros Hp Hs. unfold dex_glob. rewrite Hp. cbn [negb].
  by rewrite (sort_with_key_ok _ Hs).
Qed.

Lemma dex_glob_inv directory es res :
  dex_glob found directory es = Ok res →
  FS.isfile es "classes.dex" = true
  ∧ Forall has_key (secondaries found directory es)
  ∧ res = join directory "classes.dex"
            :: sort_by dex_number (secondaries found directory es).
Proof.
  unfold dex_glob. destruct (FS.isfile es "classes.dex"); [|done]. cbn [negb].
  destruct (sort_with_key _ _) as [r|] eqn:E; [|done].
  apply sort_with_key_inv in E as [? ->]. cbn [ebind]. intros [= <-]. done.
Qed.

Lemma filter_flat_map {A B} (P : B → Prop) `{∀ x, Decision (P x)}
    (f : A → list B) l :
  filter P (flat_map f l) = flat_map (λ x, filter P (f x)) l.
Proof.
  induction l as [|x l IH]; [done|]. cbn [flat_map].
  by rewrite filter_app, IH.
Qed.

Lemma flat_map_fmap {A B C} (f : B → list C) (g : A → B) l :
  flat_map f (g <$> l) = flat_map (λ x, f (g x)) l.
Proof. induction l as [|x l IH]; [done|]. csimpl. by rewrite IH. Qed.


Lemma flat_map_perm_ext {A B} (f g : A → list B) l :
  (∀ x, x ∈ l → f x ≡ₚ g x) → flat_map f l ≡ₚ flat_map g l.
Proof.
  induction l as [|x l IH]; intros H; [done|]. cbn [flat_map].
  rewrite (H x) by (by left). f_equiv. apply IH. intros y ?. apply H. by right.
Qed.

(** The secondaries, directory by directory. *)
Lemma secondaries_unfold directory es :
  secondaries found directory es
  = flat_map (λ d, filter (λ p, negb (endswith p "classes.dex"))
                     (join d.1 <$> filter (λ n, matches_star_dex n) d.2.*1))
             (globbed found directory es).
Proof. unfold secondaries, glob_star_dex. apply filter_flat_map. Qed.



Lemma extract_dex_number_join directory n :
  contains slash n = false →
  extract_dex_number (join directory n)
  = match search n with
    | None => Raise (Exception ("Bad secondary dex name: " +:+ join directory n))
    | Some ds => Ok (int_of_digits ds)
    end.
Proof. intros Hn. unfold extract_dex_number. by rewrite basename_join. Qed.

Lemma child_middle name n c l1 l2 :
  n ≠ name → FS.child name (l1 ++ (n, c) :: l2) = FS.child name (l1 ++ l2).
Proof.
  intros Hn. induction l1 as [|[m x] l1 IH]; simpl.
  - by rewrite decide_False.
  - by rewrite IH.
Qed.
End dex_glob_facts.

Section dex_claims.
Import Str Dex.




(** C6: without a file called [classes.dex] in the directory, [dex_glob]
    raises the missing-primary error and returns nothing. *)
Theorem dex_glob_no_primary found directory es :
  FS.isfile es "classes.dex" = false →
  dex_glob found directory es = Raise (Exception "No primary dex found").
Proof. intros H. unfold dex_glob. by rewrite H. Qed.

Lemma dex_glob_no_primary_witness :
  dex_glob nothing_found "apk" only_secondary_dir
  = Raise (Exception "No primary dex found").
Proof. apply dex_glob_no_primary. reflexivity. Defined.




Lemma secondaries_without directory name :
  endswith (join directory name) "classes.dex" = true →
  ∀ found l1 l2 c,
    secondaries found directory (l1 ++ (name, c) :: l2)
    = secondaries found directory (l1 ++ l2).
Proof.
  intros He found l1 l2 c.
  rewrite endswith_join_any in He by done.
  assert (∀ d, filter (λ p, negb (endswith p "classes.dex"))
                 (join d <$> filter (λ n, matches_star_dex n) [name]) = [])
    as Hnil.
  { intros d. rewrite filter_cons, filter_nil. case_decide; [|done].
    csimpl. rewrite filter_cons, filter_nil.
    rewrite endswith_join_any, He by done. cbn [negb].
    by rewrite decide_False by (by intros []). }
  assert (∀ d, filter (λ p, negb (endswith p "classes.dex"))
                 (join d <$> filter (λ n, matches_star_dex n)
                               (l1 ++ (name, c) :: l2).*1)
               = filter (λ p, negb (endswith p "classes.dex"))
                   (join d <$> filter (λ n, matches_star_dex n) (l1 ++ l2).*1))
    as Hsame.
  { intros d. rewrite !fmap_app, fmap_cons. cbn [fst].
    rewrite (cons_middle name).
    rewrite !filter_app, !fmap_app, !filter_app. by rewrite Hnil. }
  rewrite !secondaries_unfold. unfold globbed.
  destruct (listed_literally directory).
  - cbn [flat_map fst snd]. by rewrite Hsame.
  - rewrite !flat_map_fmap. apply flat_map_ext. intros [d [l|]]; cbn; [done|].
    apply Hsame.
Qed.

(** C9: a [*.dex] entry whose path ends in [classes.dex] and that is not
    the primary is left out without an error: [dex_glob] returns or raises
    the same with the entry as without it, and the entry is not in the
    sequence returned. *)
Theorem dex_glob_skips_classes_dex_suffix found directory name :
  endswith (join directory name) "classes.dex" = true →
  name ≠ "classes.dex" →
  (∀ l1 l2 c,
     dex_glob found directory (l1 ++ (name, c) :: l2)
     = dex_glob found directory (l1 ++ l2))
  ∧ (∀ es res,
       contains slash name = false →
       dex_glob found directory es = Ok res →
       join directory name ∉ res).
Proof.
  intros He Hn. split.
  - intros l1 l2 c. unfold dex_glob, FS.isfile.
    rewrite child_middle by done.
    by rewrite (secondaries_without directory name He).
  - intros es res Hsl (_ & _ & ->)%dex_glob_inv.
    intros [E|Hin]%elem_of_cons.
    + by apply join_inj in E.
    + rewrite sort_by_perm in Hin. unfold secondaries in Hin.
      apply list_elem_of_filter in Hin as [Hin _]. rewrite He in Hin. done.
Qed.

Lemma dex_glob_skips_classes_dex_suffix_witness :
  dex_glob nothing_found "apk"
    ([("classes2.dex", File 20%N)]
       ++ ("myclasses.dex", File 30%N) :: [("classes.dex", File 10%N)])
  = dex_glob nothing_found "apk" shadowed_dir
  ∧ "apk/myclasses.dex" ∉ ["apk/classes.dex"; "apk/classes2.dex"].
Proof.
  destruct (dex_glob_skips_classes_dex_suffix nothing_found "apk" "myclasses.dex")
    as [H1 H2]; [reflexivity|discriminate|].
  split; [apply H1|].
  apply (H2 ([("classes2.dex", File 20%N)]
               ++ ("myclasses.dex", File 30%N) :: [("classes.dex", File 10%N)]));
    reflexivity.
Defined.
End dex_claims.

(** ** Computations with state and exceptions *)

Section monad_facts.
Context {S : Type}.

Lemma mbind_unfold {A B} (m : M S A) (k : A → M S B) s :
  (m ≫= k) s = match m s with
               | (Ok a, s') => k a s'
               | (Raise e, s') => (Raise e, s')
               end.
Proof. reflexivity. Qed.

Lemma mbind_inv {A B} (m : M S A) (k : A → M S B) s r s' :
  (m ≫= k) s = (r, s') →
  (∃ e, m s = (Raise e, s') ∧ r = Raise e)
  ∨ (∃ a s1, m s = (Ok a, s1) ∧ k a s1 = (r, s')).
Proof.
  rewrite mbind_unfold. destruct (m s) as [[a|e] s1]; intros H.
  - right. by exists a, s1.
  - left. exists e. by simplify_eq.
Qed.

Lemma mbind_inv_ok {A B} (m : M S A) (k : A → M S B) s b s' :
  (m ≫= k) s = (Ok b, s') →
  ∃ a s1, m s = (Ok a, s1) ∧ k a s1 = (Ok b, s').
Proof. intros [(e & _ & ?)|H]%mbind_inv; [done|exact H]. Qed.

Lemma mret_unfold {A} (a : A) (s : S) : (mret a : M S A) s = (Ok a, s).
Proof. reflexivity. Qed.
End monad_facts.

(** ** Temporary directories *)

Section temp_dirs_facts.
Import TempDirs.

(** [remove_temp_dirs] when every registered directory is there, once. *)
Lemma remove_each (l td : list string) (w : dirs) :
  NoDup l → (∀ d, d ∈ l → d ∈ w) →
  for_each l (λ directory, on_world (tmp_rmtree directory))
           {| temp_dirs := td; world := w |}
  = (Ok (), {| temp_dirs := td; world := w ∖ list_to_set l |}).
Proof.
  revert w. induction l as [|d l IH]; intros w Hnd Hin.
  - cbn [for_each]. unfold ret. do 2 f_equal. set_solver+.
  - apply NoDup_cons in Hnd as [Hd Hnd].
    cbn [for_each]. rewrite mbind_unfold.
    unfold on_world at 1, tmp_rmtree at 1. cbn [world temp_dirs].
    rewrite decide_True by (apply Hin; left).
    rewrite IH; [|done|].
    + do 2 f_equal. set_solver+.
    + intros d' Hd'. apply elem_of_difference. split; [apply Hin; by right|].
      set_solver+ Hd Hd'.
Qed.

(** C5, as the code has it.  When the wrapped function raises, its
    exception reaches the caller; with [always_clean] false, the default,
    no temporary directory is removed; with [always_clean] true, the
    registered directories, all present, are removed first. *)
Theorem with_temp_cleanup_failure (fn : M (process dirs) unit) s e s1 :
  fn s = (Raise e, s1) →
  with_temp_cleanup tmp_rmtree fn false s = (Raise e, s1)
  ∧ (NoDup (temp_dirs s1) → (∀ d, d ∈ temp_dirs s1 → d ∈ world s1) →
     ∃ s2, with_temp_cleanup tmp_rmtree fn true s = (Raise e, s2)
           ∧ temp_dirs s2 = temp_dirs s1
           ∧ ∀ d, d ∈ temp_dirs s1 → d ∉ world s2).
Proof.
  intros Hfn. unfold with_temp_cleanup. rewrite Hfn. split; [done|].
  intros Hnd Hin. unfold remove_temp_dirs. destruct s1 as [td w].
  cbn [temp_dirs world] in *. rewrite (remove_each td td w Hnd Hin).
  eexists. split; [done|]. split; [done|].
  cbn [world]. intros d Hd. set_solver+ Hd.
Qed.

Lemma with_temp_cleanup_failure_witness :
  with_temp_cleanup tmp_rmtree failing_fn false fresh_process
  = (Raise (Exception "boom"), {| temp_dirs := ["/tmp/tmp0"]; world := {["/tmp/tmp0"]} |})
  ∧ ∃ s2, with_temp_cleanup tmp_rmtree failing_fn true fresh_process
          = (Raise (Exception "boom"), s2)
          ∧ temp_dirs s2 = ["/tmp/tmp0"]
          ∧ ∀ d, d ∈ ["/tmp/tmp0"] → d ∉ world s2.
Proof.
  destruct (with_temp_cleanup_failure failing_fn fresh_process
              (Exception "boom")
              {| temp_dirs := ["/tmp/tmp0"]; world := {["/tmp/tmp0"]} |})
    as [H1 H2]; [by vm_compute|].
  split; [exact H1|]. apply H2.
  - apply NoDup_singleton.
  - intros d Hd. exact (proj2 (elem_of_singleton d "/tmp/tmp0")
                          (proj1 (list_elem_of_singleton d "/tmp/tmp0") Hd)).
Defined.

(** C5, as the claim words it, fails for a call with the default
    [always_clean]: the directory that the failing function registered is
    still there when the exception reaches the caller. *)
Lemma with_temp_cleanup_failure_counterexample :
  ∃ s, with_temp_cleanup tmp_rmtree failing_fn false fresh_process
       = (Raise (Exception "boom"), s)
       ∧ temp_dirs s = ["/tmp/tmp0"]
       ∧ "/tmp/tmp0" ∈ world s.
Proof.
  exists {| temp_dirs := ["/tmp/tmp0"]; world := {["/tmp/tmp0"]} |}.
  split; [by vm_compute|]. split; [done|].
  exact (proj2 (elem_of_singleton "/tmp/tmp0" "/tmp/tmp0") eq_refl).
Qed.
End temp_dirs_facts.

(** ** UnpackManager *)

Section unpack_manager_facts.
Import TempDirs UnpackManager.
Context {W DexMode AppModule : Type}.
Variable detect_secondary_dex_mode : string → M W DexMode.
Variable dex_mode_type_name : DexMode → string.
Variable dex_mode_unpackage : DexMode → string → string → M W unit.
Variable dex_mode_repackage : DexMode → string → string → bool → bool → M W unit.
Variable ApplicationModule_detect : string → M W (list AppModule).
Variable get_name : AppModule → string.
Variable get_canary_prefix : AppModule → option string.
Variable module_unpackage : AppModule → string → string → M W unit.
Variable write_redex_metadata : AppModule → string → string → M W unit.
Variable module_repackage : AppModule → string → string → bool → nat → bool → M W unit.
Variable os_mkdir : string → M W unit.
Variable mkdtemp : string → M W string.

Local Abbreviation record := (list (@external_call DexMode AppModule)).
Local Abbreviation state := (@UnpackManager.state (W * record) DexMode AppModule).
Local Abbreviation enter :=
  (recording_enter detect_secondary_dex_mode dex_mode_type_name
     dex_mode_unpackage ApplicationModule_detect get_name get_canary_prefix
     module_unpackage write_redex_metadata os_mkdir mkdtemp).
Local Abbreviation exit_ :=
  (recording_exit dex_mode_repackage get_name module_repackage).

Lemma repacked_cons (c : @external_call DexMode AppModule) l :
  repacked (c :: l)
  = match c with
    | ModuleRepackage m _ _ _ i _ => (m, i) :: repacked l
    | _ => repacked l
    end.
Proof. by destruct c. Qed.

Lemma detected_cons (c : @external_call DexMode AppModule) l :
  detected (c :: l)
  = match c with Detect _ (Ok ms) => ms :: detected l | _ => detected l end.
Proof. by destruct c as [| | |? []| | | | |]. Qed.

Lemma unpacked_cons (c : @external_call DexMode AppModule) l :
  unpacked (c :: l)
  = match c with ModuleUnpackage m _ _ => m :: unpacked l | _ => unpacked l end.
Proof. by destruct c. Qed.

Lemma bind_log {S' B} line (k : unit → M (@UnpackManager.state S' DexMode AppModule) B) s :
  (log line ≫= k) s
  = k () {| self := self s; proc := proc s; logged := logged s ++ [line] |}.
Proof. reflexivity. Qed.

(** A call of a recording collaborator adds one entry to the record and
    leaves the object as it is; what follows runs when it returns. *)
Lemma bind_recording_inv {A B} entry (m : M W A) (k : A → M state B)
    (s : state) r s' :
  (call (recording entry m) ≫= k) s = (r, s') →
  ∃ ra s1, self s1 = self s ∧ calls s1 = calls s ++ [entry ra]
           ∧ match ra with
             | Ok a => k a s1 = (r, s')
             | Raise e => r = Raise e ∧ s' = s1
             end.
Proof.
  rewrite mbind_unfold. unfold call, on_proc, on_world, recording, calls.
  destruct (m (world (proc s)).1) as [[a|e] w]; cbn; intros H.
  - eexists (Ok a), _. split_and!; [| |exact H]; reflexivity.
  - simplify_eq. eexists (Raise e), _.
    split_and!; [| | |reflexivity]; reflexivity.
Qed.

Lemma bind_make_temp_dir_inv {B} name debug (k : string → M state B)
    (s : state) r s' :
  (on_proc (make_temp_dir (λ n, recording (Mkdtemp n) (mkdtemp n)) name debug)
   ≫= k) s = (r, s') →
  ∃ ra s1, self s1 = self s ∧ calls s1 = calls s ++ [Mkdtemp name ra]
           ∧ match ra with
             | Ok a => k a s1 = (r, s')
             | Raise e => r = Raise e ∧ s' = s1
             end.
Proof.
  rewrite mbind_unfold. unfold on_proc, make_temp_dir, calls.
  rewrite mbind_unfold. unfold on_world at 1, recording.
  destruct (mkdtemp name (world (proc s)).1) as [[a|e] w]; cbn; intros H.
  - destruct debug; cbn in H;
      (eexists (Ok a), _; split_and!; [| |exact H]; reflexivity).
  - simplify_eq. eexists (Raise e), _.
    split_and!; [| | |reflexivity]; reflexivity.
Qed.

Lemma repack_loop_calls me modules i (s : state) r s' :
  repack_loop get_name
    (λ m a d l i f, recording (λ _, ModuleRepackage m a d l i f)
                      (module_repackage m a d l i f))
    me modules i s = (r, s') →
  self s' = self s
  ∧ ∃ l, calls s' = calls s ++ l
         ∧ repacked l `prefix_of` zip modules (seq i (length modules))
         ∧ (r = Ok () → repacked l = zip modules (seq i (length modules))).
Proof.
  revert i s. induction modules as [|m rest IH]; intros i s H.
  - cbn [repack_loop] in H. rewrite mret_unfold in H. simplify_eq.
    split; [done|]. exists []. by rewrite app_nil_r.
  - cbn [repack_loop] in H. rewrite bind_log in H.
    apply bind_recording_inv in H as ([[]|e] & s1 & Hs & Hc & H);
      cbn [self] in Hs; change (calls _) with (calls s) in Hc at 2.
    + apply IH in H as (Hs' & l & Hc' & Hp & Hok).
      split; [congruence|]. eexists (_ :: l).
      split; [rewrite Hc', Hc, <-app_assoc; reflexivity|].
      rewrite repacked_cons. cbn [length seq zip zip_with] in *.
      rewrite Nat.add_1_r in *.
      split; [by apply prefix_cons|]. intros ?. f_equal. by apply Hok.
    + destruct H as [-> ->]. split; [done|]. eexists [_].
      split; [exact Hc|]. rewrite repacked_cons.
      split; [|done]. apply prefix_cons, prefix_nil.
Qed.

Lemma exit_calls (s : state) r s' :
  exit_ s = (r, s') →
  let modules := application_modules (self s) in
  ∃ l, calls s' = calls s ++ l
       ∧ repacked l `prefix_of` zip modules (seq 1 (length modules))
       ∧ (r = Ok () → repacked l = zip modules (seq 1 (length modules))).
Proof.
  intros H modules. unfold recording_exit, __exit__ in H.
  rewrite mbind_unfold in H. unfold get_self in H.
  rewrite !bind_log in H. cbn [self] in H.
  destruct (dex_mode (self s)) as [mode|].
  - apply bind_recording_inv in H as ([[]|e] & s1 & Hs & Hc & H);
      cbn [self] in Hs; change (calls _) with (calls s) in Hc at 2.
    + apply repack_loop_calls in H as (_ & l & Hc' & Hp & Hok).
      eexists (_ :: l).
      split; [rewrite Hc', Hc, <-app_assoc; reflexivity|].
      by rewrite repacked_cons.
    + destruct H as [-> ->]. eexists [_]. split; [exact Hc|].
      split; [apply prefix_nil|done].
  - unfold raise in H. simplify_eq. exists [].
    split; [by rewrite app_nil_r|]. split; [apply prefix_nil|done].
Qed.

Lemma unpack_loop_calls me store_metadata_dir modules files (s : state) r s' :
  unpack_loop get_name get_canary_prefix
    (λ m a p, recording (λ _, ModuleUnpackage m a p) (module_unpackage m a p))
    (λ m p f, recording (λ _, WriteRedexMetadata m p f) (write_redex_metadata m p f))
    (λ p, recording (λ _, OsMkdir p) (os_mkdir p))
    me store_metadata_dir modules files s = (Ok r, s') →
  self s' = self s
  ∧ ∃ l, calls s' = calls s ++ l ∧ detected l = [] ∧ unpacked l = modules.
Proof.
  revert files s. induction modules as [|m rest IH]; intros files s H.
  - cbn [unpack_loop] in H. rewrite mret_unfold in H. simplify_eq.
    split; [done|]. exists []. by rewrite app_nil_r.
  - cbn [unpack_loop] in H. rewrite bind_log in H.
    apply bind_recording_inv in H as ([[]|e] & s1 & Hs1 & Hc1 & H);
      [|by destruct H].
    cbn [self] in Hs1; change (calls _) with (calls s) in Hc1 at 2.
    apply bind_recording_inv in H as ([[]|e] & s2 & Hs2 & Hc2 & H);
      [|by destruct H].
    apply bind_recording_inv in H as ([[]|e] & s3 & Hs3 & Hc3 & H);
      [|by destruct H].
    apply IH in H as (Hs' & l & Hc' & Hd & Hu).
    split; [congruence|]. eexists (_ :: _ :: _ :: l).
    split; [rewrite Hc', Hc3, Hc2, Hc1, <-!app_assoc; reflexivity|].
    rewrite !detected_cons, !unpacked_cons.
    split; [done|]. by f_equal.
Qed.

Lemma enter_calls (s : state) files s' :
  enter s = (Ok files, s') →
  ∃ l, calls s' = calls s ++ l
       ∧ detected l = [application_modules (self s')]
       ∧ unpacked l = application_modules (self s').
Proof.
  intros H. unfold recording_enter, __enter__ in H.
  rewrite mbind_unfold in H. unfold get_self in H.
  apply bind_recording_inv in H as ([mode|e] & s1 & Hs1 & Hc1 & H);
    [|by destruct H].
  rewrite mbind_unfold in H. unfold set_dex_mode in H.
  rewrite !bind_log in H. cbn [self proc logged] in H.
  apply bind_recording_inv in H as ([[]|e] & s2 & Hs2 & Hc2 & H);
    [|by destruct H].
  cbn [self] in Hs2. change (calls _) with (calls s1) in Hc2 at 2.
  rewrite bind_log in H.
  apply bind_make_temp_dir_inv in H as ([dir|e] & s3 & Hs3 & Hc3 & H);
    [|by destruct H].
  cbn [self] in Hs3. change (calls _) with (calls s2) in Hc3 at 2.
  apply bind_recording_inv in H as ([modules|e] & s4 & Hs4 & Hc4 & H);
    [|by destruct H].
  rewrite mbind_unfold in H.
  unfold set_application_modules in H. cbn [self proc logged] in H.
  apply unpack_loop_calls in H as (Hs & l & Hc & Hd & Hu).
  cbn [self] in Hs. change (calls _) with (calls s4) in Hc at 2.
  rewrite Hs. cbn [application_modules].
  eexists (_ :: _ :: _ :: _ :: l).
  split; [rewrite Hc, Hc4, Hc3, Hc2, Hc1, <-!app_assoc; reflexivity|].
  rewrite !detected_cons, !unpacked_cons.
  by rewrite Hd, Hu.
Qed.

(** C4: the modules that [__exit__] repacks are the modules that
    [__enter__] detected and unpacked, in that order, and the i-th of them
    is repacked with locator id i, counting from 1.  The modules and the
    ids are those that the collaborators are called with: every
    collaborator, whatever else it does, adds its call and its arguments
    to a record, and the claim is read off the record.  An exception of a
    collaborator ends the loop where it is raised; a run that returns has
    repacked all of them. *)
Theorem repack_follows_discovery (s0 s1 s2 s3 : state) files r :
  enter s0 = (Ok files, s1) →
  self s2 = self s1 →
  exit_ s2 = (r, s3) →
  ∃ modules calls_enter calls_exit,
    calls s1 = calls s0 ++ calls_enter
    ∧ detected calls_enter = [modules]
    ∧ unpacked calls_enter = modules
    ∧ calls s3 = calls s2 ++ calls_exit
    ∧ repacked calls_exit `prefix_of` zip modules (seq 1 (length modules))
    ∧ (r = Ok () → repacked calls_exit = zip modules (seq 1 (length modules))).
Proof.
  intros (l1 & Hc1 & Hd & Hu)%enter_calls Hself
         (l2 & Hc2 & Hp & Hok)%exit_calls.
  rewrite Hself in Hp, Hok.
  by exists (application_modules (self s1)), l1, l2.
Qed.
End unpack_manager_facts.

(** ** Directory trees *)

Section tree_facts.
Import FS Tree.

Lemma wf_Dir es :
  wf (Dir es) = true ↔ NoDup es.*1 ∧ ∀ n c, (n, c) ∈ es → wf c = true.
Proof.
  cbn [wf]. rewrite andb_true_iff, bool_decide_eq_true, forallb_forall.
  split; intros [H1 H2]; (split; [done|]).
  - intros n c Hin. apply (H2 (n, c)). by apply list_elem_of_In.
  - intros [n c] Hin. apply (H2 n c). by apply list_elem_of_In.
Qed.

Lemma child_here name c es : child name ((name, c) :: es) = Some c.
Proof. simpl. by rewrite decide_True. Qed.

Lemma child_later name n c es :
  n ≠ name → child name ((n, c) :: es) = child name es.
Proof. intros. simpl. by rewrite decide_False. Qed.

Lemma child_Some name c es : child name es = Some c → (name, c) ∈ es.
Proof.
  induction es as [|[n x] es IH]; [done|]. simpl.
  case_decide as E; [intros [= <-]; subst; left|right; auto].
Qed.

Lemma child_NoDup name c es :
  NoDup es.*1 → (name, c) ∈ es → child name es = Some c.
Proof.
  induction es as [|[n x] es IH]; [by intros _ ?%elem_of_nil|].
  rewrite fmap_cons, NoDup_cons. intros [Hn Hnd] [[= -> ->]|Hin]%elem_of_cons; simpl.
  - by rewrite decide_True.
  - rewrite decide_False; [by apply IH|].
    intros ->. apply Hn. by apply (list_elem_of_fmap_2 fst _ (name, c)).
Qed.

Lemma child_None name es : child name es = None ↔ name ∉ es.*1.
Proof.
  induction es as [|[n x] es IH].
  { split; [intros _ ?%elem_of_nil|]; done. }
  rewrite fmap_cons, not_elem_of_cons. simpl.
  case_decide; [naive_solver|]. rewrite IH. naive_solver.
Qed.


Lemma elem_of_filenames name es :
  NoDup es.*1 → name ∈ filenames es ↔ ∃ size, child name es = Some (File size).
Proof.
  intros Hnd. unfold filenames. rewrite list_elem_of_fmap. split.
  - intros ([n c] & -> & [Hd Hin]%list_elem_of_filter). simpl in *.
    destruct c as [size|]; [|done]. exists size. by apply child_NoDup.
  - intros [size H%child_Some]. exists (name, File size). split; [done|].
    by apply list_elem_of_filter.
Qed.






Lemma elem_of_sorted x l : x ∈ sorted l ↔ x ∈ l.
Proof. unfold sorted. by rewrite merge_sort_Permutation. Qed.

Lemma child_depth name sub es :
  child name es = Some (Dir sub) → depth (Dir sub) < depth (Dir es).
Proof.
  intros H%child_Some. cbn [depth]. apply Nat.lt_succ_r.
  induction es as [|e es IH]; [by apply elem_of_nil in H|].
  apply elem_of_cons in H as [<-|H]; cbn [foldr snd depth]; [lia|].
  specialize (IH H). cbn [depth] in IH. lia.
Qed.

(** More fuel than the depth of the tree changes nothing. *)
Lemma walk_fuel visit f1 f2 top es :
  depth (Dir es) ≤ f1 → depth (Dir es) ≤ f2 →
  walk visit f1 top es = walk visit f2 top es.
Proof.
  revert f2 top es. induction f1 as [|f1 IH]; intros f2 top es H1 H2.
  { cbn [depth] in H1. lia. }
  destruct f2 as [|f2]; [cbn [depth] in H2; lia|].
  cbn [walk]. f_equal. apply flat_map_ext. intros d.
  destruct (child d es) as [[|sub]|] eqn:E; [done| |done].
  apply child_depth in E. apply IH; lia.
Qed.
End tree_facts.

(** ** ZipManager *)

Section zip_facts.
Import FS Tree ZipManager.
Context (self : ZipManager.t) (pfc : gmap string Z).

Lemma flat_map_flat_map {A B C} (g : B → list C) (h : A → list B) l :
  flat_map g (flat_map h l) = flat_map (λ x, flat_map g (h x)) l.
Proof.
  induction l as [|x l IH]; [done|].
  cbn [flat_map]. by rewrite flat_map_app, IH.
Qed.

Lemma written_S fuel top es :
  written self pfc (S fuel) top es
  = (write_entry self pfc top <$> sorted (filenames es))
    ++ flat_map (λ d, match child d es with
                      | Some (Dir sub) => written self pfc fuel (join top d) sub
                      | _ => []
                      end) (sorted (dirnames es)).
Proof.
  unfold written. cbn [walk flat_map]. f_equal.
  rewrite flat_map_flat_map. apply flat_map_ext. intros d.
  by destruct (child d es) as [[|sub]|].
Qed.

Lemma written_enough fuel top es :
  depth (Dir es) ≤ fuel → written self pfc fuel top es = write_under self pfc top es.
Proof.
  intros H. unfold written, write_under, os_walk.
  by rewrite (walk_fuel sorted fuel (depth (Dir es))).
Qed.

(** The walk of [__exit__], one directory at a time: the files of the
    directory in sorted order, then each subdirectory in sorted order. *)
Lemma write_under_unfold top es :
  write_under self pfc top es
  = (write_entry self pfc top <$> sorted (filenames es))
    ++ flat_map (λ d, match child d es with
                      | Some (Dir sub) => write_under self pfc (join top d) sub
                      | _ => []
                      end) (sorted (dirnames es)).
Proof.
  rewrite <-(written_enough (depth (Dir es))) by done.
  cbn [depth]. rewrite written_S. f_equal. apply flat_map_ext. intros d.
  destruct (child d es) as [[|sub]|] eqn:E; [done| |done].
  apply written_enough. apply child_depth in E. cbn [depth] in E |- *. lia.
Qed.






Lemma wf_child name c es : wf (Dir es) = true → child name es = Some c → wf c = true.
Proof. intros [_ H]%wf_Dir Hc%child_Some. eauto. Qed.



(** Every entry is written with the method in the dictionary, or deflated. *)
Lemma write_under_compress top es w :
  w ∈ write_under self pfc top es →
  compress w = default ZIP_DEFLATED (pfc !! archivepath w).
Proof.
  unfold write_under. intros Hin%list_elem_of_In%in_flat_map.
  destruct Hin as ([[dirpath dirs] files] & _ & Hw%list_elem_of_In).
  apply list_elem_of_fmap in Hw as (name & -> & _).
  unfold write_entry. cbn [compress archivepath].
  by destruct (pfc !! _).
Qed.
End zip_facts.

Section signature_files.
Import FS Tree ZipManager.






End signature_files.

Section same_tree_facts.
Import FS Tree.

End same_tree_facts.

Section zip_claims.
Import FS Tree ZipManager.

Lemma enter_lookup self infolist d name :
  __enter__ self infolist d !! name
  = match recorded infolist name with
    | Some c => Some c
    | None => d !! name
    end.
Proof.
  unfold __enter__, recorded. revert d.
  induction infolist as [|info infolist IH]; intros d; [done|].
  cbn [foldl]. rewrite IH, filter_cons.
  destruct (decide (filename info = name)) as [<-|Hne].
  - rewrite last_cons. destruct (last _); [done|].
    csimpl. by rewrite lookup_insert_eq.
  - destruct (last _); [done|]. csimpl. by rewrite lookup_insert_ne.
Qed.

(** What [ZipManager] does for the first archive of a process: an entry
    with a path of the archive gets the method recorded for it, any other
    entry is deflated. *)
Lemma first_archive_compression self infolist es w :
  w ∈ (__exit__ self (__enter__ self infolist initial) es).2 →
  compress w = default ZIP_DEFLATED (recorded infolist (archivepath w)).
Proof.
  cbn [__exit__ snd]. unfold write_apk. intros ->%write_under_compress.
  rewrite enter_lookup. unfold initial. rewrite lookup_empty.
  by destruct (recorded _ _).
Qed.

(** C1 on two archives opened one after the other in one process.  The
    second archive has no entry [lib/libfoo.so], its tree has that file at
    exit, and the file is written stored, the method of the entry of that
    name in the first archive, where the claim has it deflated. *)
Theorem second_archive_inherits_compression :
  let d1 := __enter__ first_manager first_infolist initial in
  let d2 := __enter__ second_manager second_infolist d1 in
  recorded second_infolist "lib/libfoo.so" = None
  ∧ (__exit__ second_manager d2 second_tree).2
    = [ ZipWrite "/tmp/second/classes.dex" "classes.dex" ZIP_DEFLATED;
        ZipWrite "/tmp/second/lib/libfoo.so" "lib/libfoo.so" ZIP_STORED ].
Proof. split; [reflexivity|]. by vm_compute. Qed.


End zip_claims.

(** ** Changes inside a tree *)

Section tree_update_facts.
Import FS Tree.

Lemma alter_dir_nil at_ f es : alter_dir at_ [] f es = f es.
Proof. reflexivity. Qed.

Lemma alter_dir_cons at_ name ns f es sub :
  child name es = Some (Dir sub) →
  alter_dir at_ (name :: ns) f es
  = ebind (alter_dir at_ ns f sub) (λ sub', Ok (replace_child name (Dir sub') es)).
Proof.
  induction es as [|[n x] es IH]; [done|]. cbn [child].
  destruct (decide (n = name)) as [->|Hne].
  - intros [= ->]. cbn [alter_dir]. rewrite decide_True by done.
    destruct (alter_dir at_ ns f sub); cbn [ebind replace_child]; [|done].
    by rewrite decide_True.
  - intros H. specialize (IH H). cbn [alter_dir] in *.
    rewrite decide_False by done. rewrite IH.
    destruct (alter_dir at_ ns f sub); cbn [ebind replace_child]; [|done].
    by rewrite decide_False.
Qed.

Lemma alter_dir_file at_ name ns f es size :
  child name es = Some (File size) →
  alter_dir at_ (name :: ns) f es = Raise (NotADirectoryError at_).
Proof.
  induction es as [|[n x] es IH]; [done|]. cbn [child].
  destruct (decide (n = name)) as [->|Hne].
  - intros [= ->]. cbn [alter_dir]. by rewrite decide_True.
  - intros H. specialize (IH H). cbn [alter_dir] in *.
    rewrite decide_False by done. by rewrite IH.
Qed.

Lemma alter_dir_missing at_ name ns f es :
  child name es = None →
  alter_dir at_ (name :: ns) f es = Raise (FileNotFoundError at_).
Proof.
  induction es as [|[n x] es IH]; [done|]. cbn [child].
  destruct (decide (n = name)) as [->|Hne]; [done|].
  intros H. specialize (IH H). cbn [alter_dir] in *.
  rewrite decide_False by done. by rewrite IH.
Qed.

Lemma child_replace_child name c es :
  is_Some (child name es) → child name (replace_child name c es) = Some c.
Proof.
  induction es as [|[n x] es IH]; [by intros [??]|]. cbn [child replace_child].
  destruct (decide (n = name)) as [->|Hne]; [by rewrite child_here|].
  intros H. rewrite child_later by done. by apply IH.
Qed.

Lemma replace_child_twice name c c' es :
  replace_child name c' (replace_child name c es) = replace_child name c' es.
Proof.
  induction es as [|[n x] es IH]; [done|]. cbn [replace_child].
  destruct (decide (n = name)) as [->|Hne]; cbn [replace_child].
  - by rewrite decide_True.
  - by rewrite decide_False, IH.
Qed.

Lemma replace_child_same name c es :
  child name es = Some c → replace_child name c es = es.
Proof.
  induction es as [|[n x] es IH]; [done|]. cbn [child replace_child].
  destruct (decide (n = name)) as [->|Hne]; [by intros [= ->]|].
  intros H. by rewrite IH.
Qed.

Lemma replace_child_last name c c' es :
  child name es = None →
  replace_child name c' (es ++ [(name, c)]) = es ++ [(name, c')].
Proof.
  induction es as [|[n x] es IH]; cbn [child app replace_child].
  - intros _. by rewrite decide_True.
  - destruct (decide (n = name)) as [->|Hne]; [done|].
    intros H. by rewrite IH.
Qed.

Lemma child_last name c es :
  child name es = None → child name (es ++ [(name, c)]) = Some c.
Proof.
  induction es as [|[n x] es IH]; cbn [child app].
  - intros _. by rewrite decide_True.
  - destruct (decide (n = name)) as [->|Hne]; [done|]. apply IH.
Qed.

Lemma filter_other_names name c es :
  child name es = None →
  filter (λ e : string * node, e.1 ≠ name) (es ++ [(name, c)]) = es.
Proof.
  induction es as [|[n x] es IH]; cbn [child app].
  - intros _. rewrite filter_cons. by rewrite decide_False by (by intros ?).
  - destruct (decide (n = name)) as [->|Hne]; [done|].
    intros H. rewrite filter_cons, decide_True by done. by rewrite IH.
Qed.

Lemma lookup_app ns1 ns2 n :
  lookup (ns1 ++ ns2) n = lookup ns1 n ≫= lookup ns2.
Proof.
  revert n. induction ns1 as [|name ns1 IH]; intros n; [done|].
  cbn [app lookup]. destruct n as [|es]; [done|].
  destruct (child name es) as [c|]; [apply IH|done].
Qed.

Lemma wf_lookup ns n c : wf n = true → lookup ns n = Some c → wf c = true.
Proof.
  revert n. induction ns as [|name ns IH]; intros n W; [by intros [= <-]|].
  cbn [lookup]. destruct n as [|es]; [done|].
  destruct (child name es) as [c'|] eqn:E; [|done].
  apply IH. by eapply wf_child.
Qed.

(** Every step of a walk is at a directory of the tree, with the names of
    its files. *)
Lemma walk_steps visit fuel top es step :
  step ∈ walk visit fuel top es →
  ∃ ns sub, step.1.1 = Path (base top) (names top ++ ns)
            ∧ lookup ns (Dir es) = Some (Dir sub)
            ∧ step.2 = filenames sub.
Proof.
  revert top es. induction fuel as [|fuel IH]; intros top es; [by intros ?%elem_of_nil|].
  cbn [walk]. intros [->|Hin]%elem_of_cons.
  - exists [], es. rewrite app_nil_r. by destruct top.
  - apply list_elem_of_In, in_flat_map in Hin as (d & _ & Hin).
    destruct (child d es) as [[|sub]|] eqn:E; try done.
    apply list_elem_of_In, IH in Hin as (ns & sub' & Hp & Hl & Hf).
    exists (d :: ns), sub'. cbn [lookup]. rewrite E. cbn [join base names] in Hp.
    split; [by rewrite Hp, <-app_assoc|done].
Qed.

Lemma all_files_child P es name c :
  all_files P (Dir es) = true → child name es = Some c →
  match c with
  | File size => P name size = true
  | Dir _ => all_files P c = true
  end.
Proof.
  intros H E%child_Some%list_elem_of_In. cbn [all_files] in H.
  rewrite forallb_forall in H. specialize (H _ E). cbn [fst snd] in H.
  by destruct c.
Qed.

Lemma all_files_lookup P es ns name size :
  all_files P (Dir es) = true →
  lookup (ns ++ [name]) (Dir es) = Some (File size) → P name size = true.
Proof.
  revert es. induction ns as [|n ns IH]; intros es H.
  - cbn [app lookup]. destruct (child name es) as [c|] eqn:E; [|done].
    simpl. intros [= ->]. apply (all_files_child P es name _ H E).
  - cbn [app lookup]. destruct (child n es) as [[|sub]|] eqn:E; simpl.
    + by destruct ns.
    + apply IH. apply (all_files_child P es n _ H E).
    + done.
Qed.
End tree_update_facts.

(** ** LibraryManager *)

Section library_manager_facts.
Import FS Tree LibraryManager.

Lemma elem_of_fnmatch_filter f filenames name :
  f ∈ fnmatch_filter filenames name ↔ f ∈ filenames ∧ f = name.
Proof. unfold fnmatch_filter. rewrite list_elem_of_filter. tauto. Qed.

Lemma zstd_loop_spec root matched libs es r es' :
  zstd_loop root matched libs es = (r, es') →
  es' = es
  ∧ ∀ libs', r = Ok libs' →
      ∃ added, libs' = libs ++ added
               ∧ Forall (λ p, ∃ f size, f ∈ matched ∧ p = join root f
                                        ∧ getsize p es = Ok size ∧ (0 < size)%N) added.
Proof.
  revert libs. induction matched as [|f matched IH]; intros libs H.
  - cbn [zstd_loop] in H. rewrite mret_unfold in H. simplify_eq.
    split; [done|]. intros libs' [= <-]. exists []. by rewrite app_nil_r.
  - cbn [zstd_loop] in H. rewrite mbind_unfold in H.
    destruct (getsize (join root f) es) as [size|e] eqn:E; [|by simplify_eq].
    apply IH in H as [-> H]. split; [done|].
    intros libs' Hr. destruct (H libs' Hr) as (added & -> & Ha).
    assert (Forall (λ p, ∃ f0 size0, f0 ∈ f :: matched ∧ p = join root f0
              ∧ getsize p es = Ok size0 ∧ (0 < size0)%N) added) as Ha'.
    { eapply Forall_impl; [exact Ha|]. intros p (f0 & size0 & ? & ?).
      exists f0, size0. split; [by right|done]. }
    destruct (N.ltb_spec 0 size).
    + exists (join root f :: added). rewrite <-app_assoc. split; [done|].
      constructor; [|done]. exists f, size. split; [by left|done].
    + by exists added.
Qed.

Lemma walk_loop_spec steps libs es r es' :
  walk_loop steps libs es = (r, es') →
  es' = es
  ∧ ∀ libs', r = Ok libs' →
      ∃ added, libs' = libs ++ added
               ∧ Forall (λ p, ∃ step f, step ∈ steps ∧ f ∈ step.2
                                        ∧ queued_from es step.1.1 f p) added.
Proof.
  revert libs. induction steps as [|[[root dirs] filenames] steps IH]; intros libs H.
  - cbn [walk_loop] in H. rewrite mret_unfold in H. simplify_eq.
    split; [done|]. intros libs' [= <-]. exists []. by rewrite app_nil_r.
  - cbn [walk_loop] in H. rewrite mbind_unfold in H.
    destruct (zstd_loop _ _ _ es) as [[libs1|e] es1] eqn:E.
    + apply zstd_loop_spec in E as [-> E].
      destruct (E libs1 eq_refl) as (added1 & -> & Ha1).
      apply IH in H as [-> H]. split; [done|].
      intros libs' Hr. destruct (H libs' Hr) as (added2 & -> & Ha2).
      exists ((join root <$> fnmatch_filter filenames xz_lib_name) ++ added1 ++ added2).
      rewrite <-!app_assoc. split; [done|].
      rewrite !Forall_app. split; [|split].
      * apply Forall_fmap, Forall_forall.
        intros f [Hf ->]%elem_of_fnmatch_filter.
        exists (root, dirs, filenames), xz_lib_name.
        split; [by left|]. split; [done|]. split; [done|by left].
      * eapply Forall_impl; [exact Ha1|].
        intros p (f & size & [Hf ->]%elem_of_fnmatch_filter & -> & Hs & Hpos).
        exists (root, dirs, filenames), zstd_lib_name.
        split; [by left|]. split; [done|]. split; [done|]. right. eauto.
      * eapply Forall_impl; [exact Ha2|].
        intros p (step & f & Hin & Hf & Hq). exists step, f.
        split; [by right|done].
    + apply zstd_loop_spec in E as [-> _]. by simplify_eq.
Qed.

Lemma find_libs_tree directory es r es' :
  find_libs directory es = (r, es') → es' = es.
Proof. unfold find_libs. by intros [? _]%walk_loop_spec. Qed.

(** A queued file called [libs.zstd] is not empty. *)
Lemma find_libs_zstd directory es libs p :
  (find_libs directory es).1 = Ok libs →
  p ∈ libs → last (names p) = Some zstd_lib_name →
  ∃ size, getsize p es = Ok size ∧ (0 < size)%N.
Proof.
  destruct (find_libs directory es) as [r es'] eqn:E. cbn [fst]. intros ->.
  unfold find_libs in E. apply walk_loop_spec in E as [_ E].
  destruct (E libs eq_refl) as (added & -> & Ha).
  rewrite app_nil_l. rewrite Forall_forall in Ha. intros Hp Hlast.
  destruct (Ha p Hp) as (step & f & _ & _ & -> & Hq).
  cbn [join names] in Hlast. rewrite last_snoc in Hlast.
  destruct Hq as [->|[_ Hq]]; [done|exact Hq].
Qed.

Lemma zstd_loop_zero root matched libs es :
  (∀ f, f ∈ matched → getsize (join root f) es = Ok 0%N) →
  zstd_loop root matched libs es = (Ok libs, es).
Proof.
  induction matched as [|f matched IH]; intros H; [done|].
  cbn [zstd_loop]. rewrite mbind_unfold, H by (by left).
  cbn [N.ltb N.compare]. apply IH. intros f' ?. apply H. by right.
Qed.

Lemma walk_loop_nothing steps es :
  (∀ root dirs filenames, (root, dirs, filenames) ∈ steps →
     (∀ f, f ∈ filenames → f ≠ xz_lib_name)
     ∧ (∀ f, f ∈ filenames → f = zstd_lib_name →
          getsize (join root f) es = Ok 0%N)) →
  walk_loop steps [] es = (Ok [], es).
Proof.
  induction steps as [|[[root dirs] filenames] steps IH]; intros H; [done|].
  cbn [walk_loop]. destruct (H root dirs filenames) as [Hxz Hzstd]; [by left|].
  assert (fnmatch_filter filenames xz_lib_name = []) as ->.
  { apply elem_of_nil_inv. intros f [Hf ->]%elem_of_fnmatch_filter.
    by apply (Hxz xz_lib_name). }
  rewrite mbind_unfold. cbn [fmap list_fmap app].
  rewrite zstd_loop_zero.
  - apply IH. intros r d fs ?. apply (H r d fs). by right.
  - intros f [Hf ->]%elem_of_fnmatch_filter. by apply Hzstd.
Qed.

Lemma find_libs_nothing directory es :
  wf (Dir es) = true → all_files no_payload (Dir es) = true →
  find_libs directory es = (Ok [], es).
Proof.
  intros W HP. unfold find_libs. apply walk_loop_nothing.
  intros root dirs filenames Hin.
  apply walk_steps in Hin as (ns & sub & Hroot & Hl & Hf).
  cbn [fst snd root_of base names app] in Hroot, Hf. subst root filenames.
  pose proof (wf_lookup _ _ _ W Hl) as [Hnd _]%wf_Dir.
  assert (∀ f, f ∈ FS.filenames sub →
            ∃ size, lookup (ns ++ [f]) (Dir es) = Some (File size)
                    ∧ no_payload f size = true) as Hfile.
  { intros f (size & Hc)%elem_of_filenames; [|done]. exists size.
    assert (lookup (ns ++ [f]) (Dir es) = Some (File size)) as Hlf.
    { rewrite lookup_app, Hl. simpl. by rewrite Hc. }
    split; [done|]. by eapply all_files_lookup. }
  split.
  - intros f (size & _ & [Hxz _]%andb_true_iff)%Hfile.
    by apply bool_decide_eq_true in Hxz.
  - intros f (size & Hlf & [_ Hz]%andb_true_iff)%Hfile ->.
    apply bool_decide_eq_true in Hz. unfold getsize. cbn [join names].
    rewrite Hlf. by rewrite Hz.
Qed.
End library_manager_facts.

Section library_manager_dirs.
Import FS Tree LibraryManager.

Lemma exists_child d name es :
  exists_ (Path d [name]) es = bool_decide (is_Some (child name es)).
Proof.
  unfold exists_. cbn [names lookup]. apply bool_decide_ext.
  destruct (child name es); simpl; split; intros [??]; by eexists.
Qed.

Lemma mkdir_at_root d name es :
  child name es = None →
  mkdir (Path d [name]) es = (Ok (), es ++ [(name, Dir [])]).
Proof.
  intros H. unfold mkdir, lift, split_last. cbn [names removelast List.last fst snd].
  rewrite alter_dir_nil. by rewrite H.
Qed.

Lemma mkdir_in_child_inv d name x es c es' :
  child name es = Some c →
  mkdir (Path d [name; x]) es = (Ok (), es') →
  ∃ les, c = Dir les ∧ child x les = None
         ∧ es' = replace_child name (Dir (les ++ [(x, Dir [])])) es.
Proof.
  intros Hc. unfold mkdir, lift, split_last.
  cbn [names removelast List.last fst snd].
  destruct c as [size|les].
  { by rewrite (alter_dir_file _ _ _ _ _ size). }
  rewrite (alter_dir_cons _ _ _ _ _ les) by done. rewrite alter_dir_nil.
  destruct (child x les) eqn:Hx; [done|]. cbn [ebind].
  intros [= <-]. by exists les.
Qed.

Lemma write_file_in_scratch d name x fname size les fs es0 r es' :
  is_Some (child name es0) → child x les = None →
  write_file (Path d [name; x; fname]) size (with_scratch name x les fs es0) = (r, es') →
  ∃ fs', es' = with_scratch name x les fs' es0.
Proof.
  intros Hn Hx. unfold write_file, lift, split_last, with_scratch.
  cbn [names removelast List.last fst snd].
  rewrite (alter_dir_cons _ _ _ _ _ (les ++ [(x, Dir fs)]))
    by (by apply child_replace_child).
  rewrite (alter_dir_cons _ _ _ _ _ fs) by (by apply child_last).
  rewrite alter_dir_nil.
  destruct (child fname fs) as [[|]|]; cbn [ebind]; intros [= _ <-];
    try (by exists fs);
    eexists; by rewrite replace_child_last, replace_child_twice.
Qed.

Lemma extract_loop_in_scratch decompress d name x libs n les fs es0 r es' :
  is_Some (child name es0) → child x les = None →
  extract_loop decompress (Path d [name; x]) libs n (with_scratch name x les fs es0)
  = (r, es') →
  ∃ fs', es' = with_scratch name x les fs' es0.
Proof.
  intros Hn Hx. revert n fs.
  induction libs as [|lib libs IH]; intros n fs H.
  - cbn [extract_loop] in H. rewrite mret_unfold in H. simplify_eq. by exists fs.
  - cbn [extract_loop] in H. rewrite mbind_unfold in H.
    unfold check_call at 1 in H.
    destruct (decompress _) as [size|e partial].
    { match type of H with context [write_file ?p ?sz ?t] =>
        destruct (write_file p sz t) as [[[]|e] es1] eqn:E
      end; cbn [join base names app] in E;
        apply write_file_in_scratch in E as [fs1 ->]; try done.
      + by apply IH in H.
      + simplify_eq. by exists fs1. }
    destruct (if Str.endswith _ _ then _ else _) as [size|];
      [|unfold raise in H; simplify_eq; by exists fs].
    rewrite mbind_unfold in H.
    match type of H with context [write_file ?p ?sz ?t] =>
      destruct (write_file p sz t) as [[[]|e'] es1] eqn:E
    end; cbn [join base names app] in E;
      apply write_file_in_scratch in E as [fs1 ->]; try done;
      unfold raise in H; simplify_eq; by exists fs1.
Qed.

Lemma rmtree_scratch d name x les fs es0 :
  is_Some (child name es0) → child x les = None →
  rmtree (Path d [name; x]) (with_scratch name x les fs es0)
  = (Ok (), replace_child name (Dir les) es0).
Proof.
  intros Hn Hx. unfold rmtree, lift, split_last, with_scratch.
  cbn [names removelast List.last fst snd].
  rewrite (alter_dir_cons _ _ _ _ _ (les ++ [(x, Dir fs)]))
    by (by apply child_replace_child).
  rewrite alter_dir_nil, child_last by done. cbn [ebind].
  by rewrite filter_other_names, replace_child_twice.
Qed.

Lemma rmtree_at_root d name sub es :
  child name es = None →
  rmtree (Path d [name]) (es ++ [(name, Dir sub)]) = (Ok (), es).
Proof.
  intros H. unfold rmtree, lift, split_last.
  cbn [names removelast List.last fst snd].
  rewrite alter_dir_nil, child_last by done. by rewrite filter_other_names.
Qed.
End library_manager_dirs.

Section library_manager_claims.
Import FS Tree LibraryManager.

(** C8: a file called [libs.zstd] that is queued is not empty; and on a
    tree whose only candidates are empty [libs.zstd] files, or that has
    none, [__enter__] returns with the tree and the object as they were:
    no directory is made and [temporary_libs_dir] is not set. *)
Theorem enter_skips_empty_zstd decompress s :
  (∀ libs p,
     (find_libs (extracted_apk_dir (self s)) (tree s)).1 = Ok libs →
     p ∈ libs → last (names p) = Some zstd_lib_name →
     ∃ size, getsize p (tree s) = Ok size ∧ (0 < size)%N)
  ∧ (wf (Dir (tree s)) = true →
     all_files no_payload (Dir (tree s)) = true →
     __enter__ decompress s = (Ok (), s)).
Proof.
  split; [intros libs p; apply find_libs_zstd|].
  intros W HP. destruct s as [me es]. cbn [self tree] in *.
  unfold __enter__. rewrite mbind_unfold. unfold on_tree at 1. cbn [self tree].
  by rewrite find_libs_nothing.
Qed.

Lemma enter_skips_empty_zstd_witness :
  __enter__ always_decompressed {| self := new_manager; tree := placeholder_tree |}
  = (Ok (), {| self := new_manager; tree := placeholder_tree |})
  ∧ ∃ size, getsize (Path "/tmp/apk" ["assets"; "x"; "libs.zstd"]) lib_tree = Ok size
            ∧ (0 < size)%N.
Proof.
  split.
  - apply (proj2 (enter_skips_empty_zstd always_decompressed
                    {| self := new_manager; tree := placeholder_tree |}));
      reflexivity.
  - apply (proj1 (enter_skips_empty_zstd always_decompressed
                    {| self := new_manager; tree := lib_tree |})
             [Path "/tmp/apk" ["assets"; "libs.xzs"];
              Path "/tmp/apk" ["assets"; "x"; "libs.zstd"]]).
    + reflexivity.
    + right. left.
    + reflexivity.
Defined.

(** C10: when the walk has queued something and [__enter__] returns,
    [temporary_libs_dir] is the scratch directory [lib/__extracted_libs__]
    if [lib] was there before and [lib] itself if it was not, and
    [__exit__] removes that directory with all that was put into it, which
    leaves the tree as it was before [__enter__]: a [lib] that was there
    keeps its entries, a [lib] that was not there is gone. *)
Theorem exit_removes_what_enter_made decompress s s1 libs :
  (find_libs (extracted_apk_dir (self s)) (tree s)).1 = Ok libs →
  libs ≠ [] →
  __enter__ decompress s = (Ok (), s1) →
  let libs_dir := join (root_of (extracted_apk_dir (self s))) "lib" in
  let extracted_dir := join libs_dir "__extracted_libs__" in
  temporary_libs_dir (self s1)
  = Some (if child "lib" (tree s) is Some _ then extracted_dir else libs_dir)
  ∧ is_Some (lookup ["lib"; "__extracted_libs__"] (Dir (tree s1)))
  ∧ ∃ s2, __exit__ s1 = (Ok (), s2)
          ∧ self s2 = self s1
          ∧ tree s2 = tree s
          ∧ lookup ["lib"; "__extracted_libs__"] (Dir (tree s2)) = None.
Proof.
  destruct s as [me es]. cbn [self tree]. intros Hfind Hne Henter.
  unfold __enter__ in Henter. rewrite mbind_unfold in Henter.
  unfold on_tree at 1 in Henter. cbn [self tree] in Henter.
  destruct (find_libs (extracted_apk_dir me) es) as [r es'] eqn:E.
  pose proof (find_libs_tree _ _ _ _ E) as ->. cbn [fst] in Hfind. subst r.
  rewrite decide_True in Henter by (destruct libs; [done|cbn; lia]).
  rewrite mbind_unfold in Henter. unfold on_tree at 1 in Henter.
  cbn [self tree] in Henter. unfold ensure_libs_dir in Henter.
  change (join (root_of (extracted_apk_dir me)) "lib")
    with (Path (extracted_apk_dir me) ["lib"]) in *.
  change (join (Path (extracted_apk_dir me) ["lib"]) "__extracted_libs__")
    with (Path (extracted_apk_dir me) ["lib"; "__extracted_libs__"]) in *.
  rewrite exists_child in Henter.
  destruct (child "lib" es) as [c|] eqn:Hlib.
  - rewrite bool_decide_eq_true_2 in Henter by (by eexists).
    rewrite mbind_unfold in Henter.
    destruct (mkdir _ es) as [[[]|e] es1] eqn:Hmk; [|done].
    apply (mkdir_in_child_inv _ _ _ _ _ _ Hlib) in Hmk as (les & -> & Hx & ->).
    rewrite mret_unfold, mbind_unfold in Henter.
    unfold set_temporary_libs_dir at 1 in Henter. cbn [self tree] in Henter.
    unfold on_tree in Henter. cbn [self tree] in Henter.
    fold (with_scratch "lib" "__extracted_libs__" les [] es) in Henter.
    destruct (extract_loop _ _ _ _ _) as [r es2] eqn:Hex.
    apply extract_loop_in_scratch in Hex as [fs ->]; [|by eexists|done].
    simplify_eq. cbn [self tree temporary_libs_dir].
    split; [done|]. split.
    { unfold with_scratch. cbn [lookup].
      rewrite child_replace_child by (by eexists). simpl.
      rewrite child_last by done. by eexists. }
    unfold __exit__, on_tree. cbn [self tree temporary_libs_dir].
    rewrite rmtree_scratch by (by eexists || done).
    eexists. split; [done|]. cbn [self tree].
    rewrite (replace_child_same _ _ _ Hlib). split; [done|]. split; [done|].
    cbn [lookup]. rewrite Hlib. simpl. by rewrite Hx.
  - rewrite bool_decide_eq_false_2 in Henter by (by intros [??]).
    rewrite mbind_unfold, mkdir_at_root in Henter by done.
    rewrite mbind_unfold in Henter.
    destruct (mkdir _ (es ++ _)) as [[[]|e] es1] eqn:Hmk; [|done].
    apply (mkdir_in_child_inv _ _ _ _ (Dir [])) in Hmk as (les & [= <-] & _ & ->);
      [|by apply child_last].
    rewrite mret_unfold, mbind_unfold in Henter.
    unfold set_temporary_libs_dir at 1 in Henter. cbn [self tree] in Henter.
    unfold on_tree in Henter. cbn [self tree] in Henter.
    fold (with_scratch "lib" "__extracted_libs__" [] []
            (es ++ [("lib", Dir [])])) in Henter.
    destruct (extract_loop _ _ _ _ _) as [r es2] eqn:Hex.
    apply extract_loop_in_scratch in Hex as [fs ->];
      [|rewrite child_last by done; by eexists|done].
    simplify_eq. cbn [self tree temporary_libs_dir].
    unfold with_scratch. rewrite replace_child_last by done.
    split; [done|]. split.
    { cbn [lookup]. rewrite child_last by done. simpl. by eexists. }
    unfold __exit__, on_tree. cbn [self tree temporary_libs_dir].
    rewrite rmtree_at_root by done.
    eexists. split; [done|]. cbn [self tree]. split; [done|]. split; [done|].
    cbn [lookup]. by rewrite Hlib.
Qed.

Lemma exit_removes_what_enter_made_witness :
  ∃ s1 s2,
    __enter__ always_decompressed {| self := new_manager; tree := lib_tree |}
    = (Ok (), s1)
    ∧ temporary_libs_dir (self s1)
      = Some (Path "/tmp/apk" ["lib"; "__extracted_libs__"])
    ∧ __exit__ s1 = (Ok (), s2)
    ∧ tree s2 = lib_tree.
Proof.
  destruct (__enter__ always_decompressed {| self := new_manager; tree := lib_tree |})
    as [r s1] eqn:E.
  assert (r = Ok ()) as -> by (by vm_compute in E; simplify_eq).
  destruct (exit_removes_what_enter_made always_decompressed
              {| self := new_manager; tree := lib_tree |} s1
              [Path "/tmp/apk" ["assets"; "libs.xzs"];
               Path "/tmp/apk" ["assets"; "x"; "libs.zstd"]])
    as (Ht & _ & s2 & Hexit & _ & Htree & _);
    [reflexivity|discriminate|exact E|].
  exists s1, s2. split; [done|]. split; [exact Ht|]. split; [exact Hexit|exact Htree].
Defined.
End library_manager_claims.

Section unpack_manager_example.
Import TempDirs UnpackManager.

Lemma repack_follows_discovery_witness :
  ∃ calls_exit,
    calls (demo_recording_exit (demo_recording_enter demo_recording_start).2).2
    = calls (demo_recording_enter demo_recording_start).2 ++ calls_exit
    ∧ repacked calls_exit = [("zeta", 1); ("alpha", 2); ("mid", 3)].
Proof.
  destruct (repack_follows_discovery
              (λ _, mret ()) (λ _, "Api21DexMode") (λ _ _ _, mret ())
              (λ _ _ _ _ _, mret ()) (λ _, mret demo_modules) id (λ _, None)
              (λ _ _ _, mret ()) (λ _ _ _, mret ())
              (λ _ _ _ _ _ _, mret ()) (λ _, mret ()) demo_mkdtemp
              demo_recording_start
              (demo_recording_enter demo_recording_start).2
              (demo_recording_enter demo_recording_start).2
              (demo_recording_exit (demo_recording_enter demo_recording_start).2).2
              ["/tmp/tmp0.application_module_metadata/zeta.json";
               "/tmp/tmp0.application_module_metadata/alpha.json";
               "/tmp/tmp0.application_module_metadata/mid.json"]
              (Ok ()))
    as (modules & calls_enter & calls_exit & Hce & Hd & _ & Hc & _ & Hr);
    [by vm_compute|reflexivity|by vm_compute|].
  exists calls_exit. split; [exact Hc|].
  rewrite (Hr eq_refl).
  assert (modules = demo_modules) as ->; [|reflexivity].
  assert (calls (demo_recording_enter demo_recording_start).2
          = [DetectSecondaryDexMode "/tmp/apk" (Ok ());
             DexUnpackage () "/tmp/apk" "/tmp/dex";
             Mkdtemp ".application_module_metadata"
               (Ok "/tmp/tmp0.application_module_metadata");
             Detect "/tmp/apk" (Ok demo_modules);
             OsMkdir "/tmp/dex/zeta";
             ModuleUnpackage "zeta" "/tmp/apk" "/tmp/dex/zeta";
             WriteRedexMetadata "zeta" "/tmp/dex/zeta"
               "/tmp/tmp0.application_module_metadata/zeta.json";
             OsMkdir "/tmp/dex/alpha";
             ModuleUnpackage "alpha" "/tmp/apk" "/tmp/dex/alpha";
             WriteRedexMetadata "alpha" "/tmp/dex/alpha"
               "/tmp/tmp0.application_module_metadata/alpha.json";
             OsMkdir "/tmp/dex/mid";
             ModuleUnpackage "mid" "/tmp/apk" "/tmp/dex/mid";
             WriteRedexMetadata "mid" "/tmp/dex/mid"
               "/tmp/tmp0.application_module_metadata/mid.json"]) as Hrec
    by by vm_compute.
  rewrite Hrec in Hce. cbn [demo_recording_start calls proc world snd app] in Hce.
  rewrite <-Hce in Hd. by injection Hd as <-.
Defined.
End unpack_manager_example.

(** ** Comment removal *)

Section comments_facts.
Import Str Comments.

Lemma scan_idempotent fb iq l : scan fb iq (scan fb iq l) = scan fb iq l.
Proof.
  revert fb iq. induction l as [|c l IH]; intros fb iq; [done|].
  cbn [scan].
  destruct (bool_decide (c = backslash) && negb fb) eqn:E1.
  { cbn [scan]. rewrite E1. by rewrite IH. }
  destruct (bool_decide (c = dquote) && negb fb) eqn:E2.
  { cbn [scan]. rewrite E1, E2. by rewrite IH. }
  destruct (bool_decide (c = hash) && negb iq) eqn:E3; [done|].
  cbn [scan]. rewrite E1, E2, E3. by rewrite IH.
Qed.

Lemma scan_no_hash fb iq l : contains hash l = false → scan fb iq l = l.
Proof.
  revert fb iq. induction l as [|c l IH]; intros fb iq; [done|].
  cbn [contains scan]. destruct (decide (c = hash)) as [->|Hc]; [done|].
  intros Hl. rewrite (bool_decide_eq_false_2 (c = hash)) by done.
  cbn [andb]. rewrite !IH by done. by repeat case_match.
Qed.

Lemma scan_cut fb l rest :
  contains hash l = false → contains dquote l = false →
  scan fb false (l +:+ String hash rest) = l.
Proof.
  revert fb. induction l as [|c l IH]; intros fb; [by destruct fb|].
  cbn [contains]. destruct (decide (c = hash)) as [->|Hh]; [done|].
  destruct (decide (c = dquote)) as [->|Hq]; [done|]. intros Hl Hl'.
  rewrite app_cons. cbn [scan].
  rewrite (bool_decide_eq_false_2 (c = hash)) by done.
  rewrite (bool_decide_eq_false_2 (c = dquote)) by done.
  cbn [andb]. rewrite !IH by done. by case_match.
Qed.

Lemma scan_in_quote l rest :
  contains dquote l = false → contains backslash l = false →
  scan false true (l +:+ String dquote rest)
  = l +:+ String dquote (scan false false rest).
Proof.
  induction l as [|c l IH]; [done|].
  cbn [contains]. destruct (decide (c = dquote)) as [->|Hq]; [done|].
  destruct (decide (c = backslash)) as [->|Hb]; [done|]. intros Hl Hl'.
  rewrite !app_cons. cbn [scan].
  rewrite (bool_decide_eq_false_2 (c = backslash)) by done.
  rewrite (bool_decide_eq_false_2 (c = dquote)) by done.
  cbn [andb negb]. rewrite andb_false_r. by rewrite IH.
Qed.

Lemma scan_prefix fb iq l : ∃ rest, l = scan fb iq l +:+ rest.
Proof.
  revert fb iq. induction l as [|c l IH]; intros fb iq; [by exists ""|].
  cbn [scan].
  destruct (IH true iq) as [r1 H1], (IH false (negb iq)) as [r2 H2],
    (IH false iq) as [r3 H3].
  repeat case_match.
  - exists r1. rewrite app_cons. by f_equal.
  - exists r2. rewrite app_cons. by f_equal.
  - by exists (String c l).
  - exists r3. rewrite app_cons. by f_equal.
Qed.

(** X1.  Removing the comment of a line that has already been through
    [remove_comments_from_line] changes nothing, and what is returned is
    the line up to some index. *)
Theorem remove_comments_from_line_idempotent l :
  remove_comments_from_line (remove_comments_from_line l)
  = remove_comments_from_line l
  ∧ ∃ rest, l = remove_comments_from_line l +:+ rest.
Proof. split; [apply scan_idempotent|apply scan_prefix]. Qed.

(** X2.  A line without [#] is returned as it is; a line without a double
    quote is cut at its first [#], also when a backslash stands before
    that [#]. *)
Theorem remove_comments_from_line_cut l :
  contains hash l = false →
  remove_comments_from_line l = l
  ∧ (contains dquote l = false →
     ∀ rest, remove_comments_from_line (l +:+ String hash rest) = l).
Proof.
  intros Hl. split; [by apply scan_no_hash|].
  intros Hq rest. by apply scan_cut.
Qed.

Lemma remove_comments_from_line_cut_witness :
  remove_comments_from_line (String "a" (String backslash ""))
  = String "a" (String backslash "")
  ∧ remove_comments_from_line
      (String "a" (String backslash "") +:+ String hash " note")
    = String "a" (String backslash "").
Proof.
  destruct (remove_comments_from_line_cut
              (String "a" (String backslash "")) eq_refl) as [H1 H2].
  split; [exact H1|exact (H2 eq_refl " note")].
Defined.

(** X3.  A [#] between double quotes does not start a comment: a quoted
    text without backslashes is kept whole, and the comment is looked for
    in what follows the closing quote. *)
Theorem remove_comments_from_line_quoted q rest :
  contains dquote q = false → contains backslash q = false →
  remove_comments_from_line (String dquote (q +:+ String dquote rest))
  = String dquote (q +:+ String dquote (remove_comments_from_line rest)).
Proof.
  intros Hq Hb. unfold remove_comments_from_line. cbn [scan].
  rewrite (bool_decide_eq_false_2 (dquote = backslash)) by done.
  rewrite bool_decide_eq_true_2 by done. cbn [andb negb].
  by rewrite scan_in_quote.
Qed.

Lemma remove_comments_from_line_quoted_witness :
  remove_comments_from_line
    (String dquote ("#fff" +:+ String dquote ", # colour"))
  = String dquote ("#fff" +:+ String dquote ", ").
Proof.
  exact (remove_comments_from_line_quoted "#fff" ", # colour" eq_refl eq_refl).
Defined.

Lemma scan_unquoted_no_hash fb l :
  contains dquote l = false → contains hash (scan fb false l) = false.
Proof.
  revert fb. induction l as [|c l IH]; intros fb; [done|].
  cbn [contains scan]. destruct (decide (c = dquote)) as [->|Hq]; [done|].
  intros Hl. rewrite (bool_decide_eq_false_2 (c = dquote)) by done.
  cbn [andb negb]. rewrite andb_true_r.
  destruct (bool_decide (c = backslash) && negb fb) eqn:E1.
  { apply andb_true_iff in E1 as [->%bool_decide_eq_true _].
    cbn [contains]. rewrite decide_False by done. by apply IH. }
  destruct (decide (c = hash)) as [->|Hh].
  { by rewrite bool_decide_eq_true_2. }
  rewrite bool_decide_eq_false_2 by done. cbn [contains].
  rewrite decide_False by done. by apply IH.
Qed.

(** X30.  When no line has a double quote, the text that
    [remove_comments] returns has no [#] left in it. *)
Theorem remove_comments_no_hash lines :
  Forall (λ l, contains dquote l = false) lines →
  contains hash (remove_comments lines) = false.
Proof.
  induction 1 as [|l lines Hl _ IH]; [done|].
  unfold remove_comments in *. cbn [foldr].
  rewrite !contains_app, IH. unfold remove_comments_from_line.
  by rewrite scan_unquoted_no_hash.
Qed.

Lemma remove_comments_no_hash_witness :
  contains hash (remove_comments ["a = 1  # one"; "# only a comment"; "b = 2"])
  = false.
Proof.
  apply remove_comments_no_hash. repeat constructor.
Defined.

End comments_facts.

(** ** Flags, globbing and file extensions *)

Section flag_facts.
Import Str Flags.

Lemma startswith_app_both p s t :
  startswith (p +:+ s) (p +:+ t) = startswith s t.
Proof.
  induction p as [|a p IH]; [by rewrite !app_empty_l|].
  rewrite !app_cons. cbn [startswith]. by rewrite decide_True.
Qed.

(** X4.  The action of [argparse_yes_no_flag] stores [False] for the off
    spelling of the flag; for the on spelling it stores [True] unless that
    spelling itself starts with the off prefix, as [--no-op] does with the
    prefixes of the default: then it stores [False] too. *)
Theorem yes_no_flag_stores flag_name on_prefix off_prefix namespace :
  let a := argparse_yes_no_flag flag_name on_prefix off_prefix in
  option_strings a = ["--" +:+ on_prefix +:+ flag_name;
                      "--" +:+ off_prefix +:+ flag_name]
  ∧ FlagAction_call a namespace ("--" +:+ off_prefix +:+ flag_name)
      !! flag_name = Some false
  ∧ FlagAction_call a namespace ("--" +:+ on_prefix +:+ flag_name)
      !! flag_name
    = Some (negb (startswith (on_prefix +:+ flag_name) off_prefix)).
Proof.
  intros a. split; [done|]. unfold FlagAction_call, a. cbn.
  rewrite !lookup_insert_eq. split.
  - rewrite startswith_app_both, startswith_app. done.
  - rewrite startswith_app_both. by destruct (startswith _ _).
Qed.

End flag_facts.

Section glob_facts.
Import Str Glob.

Lemma startswith_slash_contains n :
  contains slash n = false → startswith n "/" = false.
Proof.
  destruct n as [|a n]; [done|]. cbn [contains startswith].
  destruct (decide (a = slash)) as [->|Ha]; [done|]. intros _.
  destruct (decide ("/"%char = a)) as [<-|]; done.
Qed.

Lemma join_absolute d n : startswith d "/" = true → startswith (join d n) "/" = true.
Proof.
  intros Hd. unfold join. destruct (startswith n "/") eqn:Hn; [exact Hn|].
  destruct d as [|a d]; [done|]. rewrite decide_False by done.
  cbn [startswith] in Hd. destruct (decide ("/"%char = a)) as [<-|]; [|done].
  destruct (endswith _ _); rewrite app_cons; cbn [startswith];
    by rewrite decide_True, startswith_empty.
Qed.

(** X5.  For a [directory] that starts with a slash, [abs_glob] yields the
    paths of [glob.glob] themselves. *)
Theorem abs_glob_absolute matches directory es :
  startswith directory "/" = true →
  abs_glob_with matches directory es = Glob.glob matches directory es.
Proof.
  intros Hd. unfold abs_glob_with, Glob.glob.
  rewrite <-list_fmap_compose. apply list_fmap_ext. intros _ n _. simpl.
  unfold join at 1. by rewrite (join_absolute directory n).
Qed.

Lemma abs_glob_absolute_witness :
  abs_glob "/tmp/out" [("classes.dex", File 4); (".hidden", File 1)]
  = ["/tmp/out/classes.dex"].
Proof.
  exact (abs_glob_absolute (λ _, true) "/tmp/out"
           [("classes.dex", File 4%N); (".hidden", File 1%N)] eq_refl).
Defined.

(** X6.  For a relative [directory] whose name [glob] takes as it is
    written, the paths [abs_glob] yields are not absolute: the directory
    stands twice in front of each name. *)
Theorem abs_glob_relative matches directory es :
  Dex.has_magic directory = false →
  directory ≠ "" → startswith directory "/" = false →
  endswith directory "/" = false →
  Forall (λ e, contains slash e.1 = false) es →
  abs_glob_with matches directory es
  = (λ n, directory +:+ "/" +:+ directory +:+ "/" +:+ n)
    <$> filter (λ n, matches n && negb (startswith n ".")) es.*1.
Proof.
  intros _ Hne Habs Hend Hes. unfold abs_glob_with, Glob.glob.
  rewrite <-list_fmap_compose. apply list_fmap_ext. intros i n Hn. unfold compose.
  apply list_elem_of_lookup_2, list_elem_of_filter in Hn as [_ Hn].
  apply list_elem_of_fmap in Hn as ([n' c] & -> & Hn).
  rewrite Forall_forall in Hes. specialize (Hes _ Hn). cbn [fst] in *.
  apply startswith_slash_contains in Hes.
  assert (join directory n' = directory +:+ "/" +:+ n') as ->.
  { unfold join. rewrite Hes, decide_False, Hend by done. done. }
  assert (startswith (directory +:+ "/" +:+ n') "/" = false) as Hrel.
  { destruct directory as [|a d]; [done|]. rewrite app_cons.
    cbn [startswith] in *. destruct (decide ("/"%char = a)); [|done].
    by rewrite startswith_empty in Habs. }
  unfold join. by rewrite Hrel, decide_False, Hend.
Qed.

Lemma abs_glob_relative_witness :
  abs_glob "out" [("classes.dex", File 4); (".hidden", File 1)]
  = ["out/out/classes.dex"].
Proof.
  refine (abs_glob_relative (λ _, true) "out"
            [("classes.dex", File 4%N); (".hidden", File 1%N)]
            eq_refl _ eq_refl eq_refl _).
  - discriminate.
  - repeat constructor.
Defined.

End glob_facts.

Section file_ext_facts.
Import Str UnpackManager.

Lemma last_dot_suffix_None s :
  last_dot_suffix s = None ↔ contains dot s = false.
Proof.
  induction s as [|c s IH]; [done|]. cbn [last_dot_suffix contains].
  destruct (last_dot_suffix s) as [e|].
  - split; [done|]. destruct (decide (c = dot)); [done|].
    intros H. by apply IH in H.
  - destruct (decide (c = dot)); [done|]. split; [|done].
    intros _. by apply IH.
Qed.

Lemma last_dot_suffix_app pre e :
  contains dot e = false →
  last_dot_suffix (pre +:+ String dot e) = Some (String dot e).
Proof.
  intros He. induction pre as [|c pre IH].
  - rewrite app_empty_l. cbn [last_dot_suffix].
    apply last_dot_suffix_None in He as ->. by rewrite decide_True.
  - rewrite app_cons. cbn [last_dot_suffix]. by rewrite IH.
Qed.

Lemma last_dot_suffix_Some s ext :
  last_dot_suffix s = Some ext → ∃ pre, s = pre +:+ ext.
Proof.
  revert ext. induction s as [|c s IH]; intros ext; [done|].
  cbn [last_dot_suffix]. destruct (last_dot_suffix s) as [e|].
  - intros [= <-]. destruct (IH e eq_refl) as [pre ->].
    exists (String c pre). by rewrite app_cons.
  - destruct (decide (c = dot)); [|done]. intros [= <-]. by exists "".
Qed.

Lemma aab_after_stem b :
  last_dot_suffix (strip_dots b) = Some ".aab"
  ↔ ∃ stem, b = stem +:+ ".aab" ∧ strip_dots stem ≠ "".
Proof.
  induction b as [|c b IH].
  { split; [done|]. intros (stem & Hb & _). by destruct stem. }
  cbn [strip_dots]. destruct (decide (c = dot)) as [->|Hc].
  - rewrite IH. split.
    + intros (stem & -> & Hs). exists (String dot stem).
      rewrite app_cons. split; [done|]. cbn [strip_dots].
      by rewrite decide_True.
    + intros (stem & Hb & Hs). destruct stem as [|c' stem]; [done|].
      rewrite app_cons in Hb. injection Hb as <- ->.
      exists stem. split; [done|]. cbn [strip_dots] in Hs.
      by rewrite decide_True in Hs.
  - split.
    + intros [pre Hpre]%last_dot_suffix_Some. exists pre. split; [done|].
      destruct pre as [|c' pre].
      * rewrite app_empty_l in Hpre. by injection Hpre as ->.
      * rewrite app_cons in Hpre. injection Hpre as <- _.
        cbn [strip_dots]. by rewrite decide_False.
    + intros (stem & -> & _). by apply (last_dot_suffix_app stem "aab").
Qed.

(** X7.  [get_dex_file_path] answers [<extracted_apk_dir>/base/dex] when
    the base name of [input_apk] is some text that is not made of dots
    only, followed by [.aab]; for every other input, a file called just
    [.aab] among them, it answers [extracted_apk_dir] itself. *)
Theorem get_dex_file_path_aab input_apk extracted_apk_dir :
  let bundle :=
    ∃ stem, basename input_apk = stem +:+ ".aab" ∧ strip_dots stem ≠ "" in
  (bundle ∧ get_dex_file_path input_apk extracted_apk_dir
            = join (join extracted_apk_dir "base") "dex")
  ∨ (¬ bundle ∧ get_dex_file_path input_apk extracted_apk_dir
                = extracted_apk_dir).
Proof.
  intros bundle. unfold get_dex_file_path, get_file_ext.
  destruct (last_dot_suffix (strip_dots (basename input_apk))) as [ext|] eqn:E.
  - destruct (decide (ext = ".aab")) as [->|Hext].
    + left. split; [by apply aab_after_stem|done].
    + right. split; [|done]. intros Hb%aab_after_stem. congruence.
  - right. rewrite decide_False by done. split; [|done].
    intros Hb%aab_after_stem. congruence.
Qed.

End file_ext_facts.

(** ** Decimal numbers in names *)

Section decimal_facts.
Import Str Dex.

Lemma int_of_digits_from s : int_of_digits s = int_from 0 s.
Proof. unfold int_of_digits. generalize 0%N. induction s; intros; simpl; auto. Qed.

Lemma pretty_N_char_digit y : is_digit (pretty_N_char y) = true.
Proof. unfold pretty_N_char. by repeat case_match. Qed.

Lemma pretty_N_char_value y : (y < 10)%N → digit_value (pretty_N_char y) = y.
Proof.
  intros Hy.
  assert (y = 0 ∨ y = 1 ∨ y = 2 ∨ y = 3 ∨ y = 4 ∨ y = 5 ∨ y = 6 ∨ y = 7
          ∨ y = 8 ∨ y = 9)%N as H by lia.
  by repeat destruct H as [->|H]; [..|subst].
Qed.

Lemma pretty_N_go_digit_run x s :
  (∀ t, digit_run (s +:+ t) = s +:+ digit_run t) →
  ∀ t, digit_run (pretty_N_go x s +:+ t) = pretty_N_go x s +:+ digit_run t.
Proof.
  revert s. induction (N.lt_wf_0 x) as [x _ IH]; intros s Hs t.
  assert (x = 0 ∨ 0 < x)%N as [->|Hx] by lia.
  { by rewrite pretty_N_go_0. }
  rewrite pretty_N_go_step by done. apply IH.
  - by apply N.div_lt.
  - intros t'. rewrite !app_cons. cbn [digit_run].
    by rewrite pretty_N_char_digit, Hs.
Qed.

Lemma pretty_N_go_int x s : int_from 0 (pretty_N_go x s) = int_from x s.
Proof.
  revert s. induction (N.lt_wf_0 x) as [x _ IH]; intros s.
  assert (x = 0 ∨ 0 < x)%N as [->|Hx] by lia.
  { by rewrite pretty_N_go_0. }
  rewrite pretty_N_go_step by done. rewrite IH by (by apply N.div_lt).
  cbn [int_from]. rewrite pretty_N_char_value by (by apply N.mod_lt).
  f_equal. rewrite (N.div_mod x 10) at 3 by done. lia.
Qed.

Lemma pretty_N_go_nonempty x s : s ≠ "" → pretty_N_go x s ≠ "".
Proof.
  revert s. induction (N.lt_wf_0 x) as [x _ IH]; intros s Hs.
  assert (x = 0 ∨ 0 < x)%N as [->|Hx] by lia.
  { by rewrite pretty_N_go_0. }
  rewrite pretty_N_go_step by done. apply IH; [by apply N.div_lt|done].
Qed.

Lemma pretty_N_digit_run (n : N) t :
  digit_run (pretty n +:+ t) = pretty n +:+ digit_run t.
Proof.
  unfold pretty, pretty_N. case_decide; [done|].
  apply pretty_N_go_digit_run. intros t'. by rewrite app_empty_l.
Qed.

Lemma pretty_N_int (n : N) : int_of_digits (pretty n) = n.
Proof.
  rewrite int_of_digits_from. unfold pretty, pretty_N.
  case_decide; [by subst|]. by rewrite pretty_N_go_int.
Qed.

Lemma pretty_N_nonempty (n : N) : pretty n ≠ "".
Proof.
  unfold pretty, pretty_N. case_decide; [done|].
  assert (0 < n)%N by lia. rewrite pretty_N_go_step by done.
  by apply pretty_N_go_nonempty.
Qed.

Lemma pretty_N_only_digits (n : N) a :
  is_digit a = false → contains a (pretty n) = false.
Proof.
  intros Ha.
  assert (∀ s, digit_run s = s → contains a s = false) as H.
  { induction s as [|c s IH]; [done|]. cbn [digit_run contains].
    destruct (is_digit c) eqn:Hc; [|done]. intros [= Hs].
    destruct (decide (c = a)) as [->|]; [congruence|]. by apply IH. }
  apply H. rewrite <-(app_empty_r (pretty n)) at 1.
  by rewrite pretty_N_digit_run, app_empty_r.
Qed.

Lemma pretty_N_no_slash (n : N) : contains slash (pretty n) = false.
Proof. by apply pretty_N_only_digits. Qed.

Lemma digits_at_pretty (n : N) t :
  digit_run t = "" → digits_at (pretty n +:+ t) = Some (pretty n).
Proof.
  intros Ht. unfold digits_at. rewrite pretty_N_digit_run, Ht, app_empty_r.
  pose proof (pretty_N_nonempty n). by destruct (pretty n).
Qed.

Lemma search_here s ds : match_here s = Some ds → search s = Some ds.
Proof. intros H. destruct s; cbn [search]; by rewrite H. Qed.

(** X8.  The number that [extract_dex_number] reads is the one in the
    name: for the file [classes<n>.dex] of any directory it returns [n],
    whatever the number of digits. *)
Theorem extract_dex_number_classes directory (n : N) :
  extract_dex_number (Str.join directory ("classes" +:+ pretty n +:+ ".dex"))
  = Ok n.
Proof.
  rewrite extract_dex_number_join.
  - rewrite (search_here _ (pretty n)); [by rewrite pretty_N_int|].
    unfold match_here, classes_digits. rewrite startswith_app.
    change 7 with (String.length "classes"). rewrite drop_app.
    by rewrite digits_at_pretty.
  - rewrite !contains_app, pretty_N_no_slash. done.
Qed.

Lemma dotstar_hyphen_digits_None s :
  contains hyphen s = false → dotstar_hyphen_digits s = None.
Proof.
  induction s as [|c s IH]; [done|]. cbn [contains dotstar_hyphen_digits].
  destruct (decide (c = hyphen)); [done|]. intros Hs. rewrite IH by done.
  by case_decide.
Qed.

Lemma dotstar_hyphen_digits_last stem ds t :
  contains newline stem = false → contains hyphen (ds +:+ t) = false →
  digits_at (ds +:+ t) = Some ds →
  dotstar_hyphen_digits (stem +:+ String hyphen (ds +:+ t)) = Some ds.
Proof.
  intros Hnl Hh Hds. induction stem as [|c stem IH].
  - rewrite app_empty_l. cbn [dotstar_hyphen_digits].
    rewrite decide_False by done. rewrite dotstar_hyphen_digits_None by done.
    by rewrite decide_True.
  - cbn [contains] in Hnl. destruct (decide (c = newline)); [done|].
    rewrite app_cons. cbn [dotstar_hyphen_digits].
    rewrite decide_False by done. by rewrite IH.
Qed.

Lemma startswith_classes_hyphen stem t :
  startswith stem "classes" = false →
  startswith (stem +:+ String hyphen t) "classes" = false.
Proof.
  intros H.
  repeat (destruct stem as [|? stem];
          [by rewrite app_empty_l; cbn [startswith]; repeat case_decide|];
          rewrite app_cons; cbn [startswith] in *;
          case_decide; [|done]).
  by rewrite startswith_empty in H.
Qed.

(** X9.  For a file [<stem>-<n>.dex] whose stem does not start with
    [classes] and has no newline, [extract_dex_number] returns [n]: the
    digits that count are those after the last hyphen, also when the
    stem has hyphens and digits of its own. *)
Theorem extract_dex_number_hyphen directory stem (n : N) :
  startswith stem "classes" = false →
  contains newline stem = false → contains slash stem = false →
  extract_dex_number
    (Str.join directory (stem +:+ String hyphen (pretty n +:+ ".dex")))
  = Ok n.
Proof.
  intros Hc Hnl Hsl. rewrite extract_dex_number_join.
  - rewrite (search_here _ (pretty n)); [by rewrite pretty_N_int|].
    unfold match_here, classes_digits.
    rewrite startswith_classes_hyphen by done.
    apply dotstar_hyphen_digits_last; [done| |by apply digits_at_pretty].
    rewrite contains_app, pretty_N_only_digits; done.
  - rewrite contains_app, Hsl. cbn [contains orb].
    rewrite decide_False by done.
    by rewrite contains_app, pretty_N_no_slash.
Qed.

Lemma extract_dex_number_hyphen_witness :
  extract_dex_number "apk/secondary-1-12.dex" = Ok 12%N.
Proof.
  exact (extract_dex_number_hyphen "apk" "secondary-1" 12 eq_refl eq_refl eq_refl).
Defined.

End decimal_facts.

(** ** The build tools of the Android SDK *)

Section build_tools_facts.
Import Str BuildTools.

Lemma version_lt_spec v w : version_lt v w = true ↔ version_below v w.
Proof.
  destruct v as [[a1 b1] c1], w as [[a2 b2] c2].
  unfold version_lt, version_below. cbn [fst snd].
  rewrite !orb_true_iff, !andb_true_iff, !orb_true_iff, !andb_true_iff.
  rewrite !N.ltb_lt, !N.eqb_eq. done.
Qed.

Lemma version_lt_false v w : version_lt v w = false ↔ ¬ version_below v w.
Proof. rewrite <-version_lt_spec. by destruct (version_lt v w). Qed.

Lemma version_below_trans u v w :
  version_below u v → version_below v w → version_below u w.
Proof. unfold version_below. lia. Qed.

Lemma version_below_le u v w :
  ¬ version_below u v → version_below u w → version_below v w.
Proof. unfold version_below. lia. Qed.

Lemma max_from_spec best rest :
  ∃ before x after,
    best :: rest = before ++ x :: after
    ∧ max_from best rest = x.1
    ∧ (∀ y, y ∈ before → version_below y.2 x.2)
    ∧ (∀ y, y ∈ after → ¬ version_below x.2 y.2).
Proof.
  revert best. induction rest as [|x rest IH]; intros best.
  { exists [], best, []. split_and!; [done..| |]; by intros ? ?%elem_of_nil. }
  cbn [max_from]. destruct (version_lt best.2 x.2) eqn:E.
  - apply version_lt_spec in E.
    destruct (IH x) as (before & m & after & Hl & Hm & Hb & Ha).
    exists (best :: before), m, after. rewrite Hl. split_and!; [done..| |done].
    intros y [->|Hy]%elem_of_cons; [|by apply Hb].
    destruct before as [|x' before].
    + by injection Hl as ->.
    + injection Hl as <- _. eapply version_below_trans; [done|].
      apply Hb. by left.
  - apply version_lt_false in E.
    destruct (IH best) as (before & m & after & Hl & Hm & Hb & Ha).
    destruct before as [|b' before].
    + injection Hl as <- <-. exists [], best, (x :: rest).
      split_and!; [done..| |].
      * by intros ? ?%elem_of_nil.
      * intros y [->|Hy]%elem_of_cons; [done|by apply Ha].
    + injection Hl as <- ->. exists (best :: x :: before), m, after.
      split_and!; [done..| |done].
      intros y [->|[->|Hy]%elem_of_cons]%elem_of_cons.
      * apply Hb. by left.
      * eapply version_below_le; [done|]. apply Hb. by left.
      * apply Hb. by right.
Qed.

Lemma elem_of_versioned names d v :
  (d, v) ∈ versioned names ↔ d ∈ names ∧ version_of d = Some v.
Proof.
  unfold versioned. rewrite list_elem_of_omap. split.
  - intros (d' & Hd & H). destruct (version_of d') eqn:E; [|done].
    by injection H as -> ->.
  - intros [Hd H]. exists d. by rewrite H.
Qed.

(** X10.  What [find_android_build_tools] returns is the entry of
    [$ANDROID_SDK/build-tools] with the highest version, the three numbers
    of a name compared as numbers ([9.0.0] is below [10.0.0]); of entries
    with the same version it is the one listed first. *)
Theorem find_android_build_tools_highest environ listdir p :
  find_android_build_tools environ listdir = inr p →
  ∃ android_home names version v,
    environ !! "ANDROID_SDK" = Some android_home
    ∧ listdir (join android_home "build-tools") = Ok names
    ∧ p = join (join android_home "build-tools") version
    ∧ version ∈ names ∧ version_of version = Some v
    ∧ (∀ d w, d ∈ names → version_of d = Some w → ¬ version_below v w)
    ∧ ∃ before after,
        versioned names = before ++ (version, v) :: after
        ∧ ∀ d w, (d, w) ∈ before → version_below w v.
Proof.
  unfold find_android_build_tools.
  destruct (environ !! "ANDROID_SDK") as [home|] eqn:Henv; [|done].
  destruct (listdir _) as [names|] eqn:Hls; [|done].
  destruct (versioned names) as [|first rest] eqn:Hv; [done|].
  intros [= <-].
  destruct (max_from_spec first rest)
    as (before & [version v] & after & Hl & Hm & Hb & Ha).
  rewrite Hm. cbn [fst snd] in *.
  assert ((version, v) ∈ versioned names) as Hin.
  { rewrite Hv, Hl. set_solver. }
  apply elem_of_versioned in Hin as [Hin Hver].
  exists home, names, version, v. split_and!; [done..| |].
  - intros d w Hd Hw.
    assert ((d, w) ∈ versioned names) as Hdw by by apply elem_of_versioned.
    rewrite Hv, Hl in Hdw.
    apply elem_of_app in Hdw as [Hdw|[Hdw|Hdw]%elem_of_cons].
    + specialize (Hb _ Hdw). cbn [snd] in Hb. unfold version_below in *. lia.
    + injection Hdw as -> ->. unfold version_below. lia.
    + by apply (Ha _ Hdw).
  - exists before, after. split; [by rewrite Hv|].
    intros d w Hdw. by apply (Hb _ Hdw).
Qed.

Lemma find_android_build_tools_highest_witness :
  ∃ android_home names version v,
    ({["ANDROID_SDK" := "/sdk"]} : gmap string string) !! "ANDROID_SDK"
    = Some android_home
    ∧ Ok ["9.0.0"; "30.0.0"; "tmp"; "10.0.1"; "030.0.0"]
      = Ok names
    ∧ "/sdk/build-tools/30.0.0" = join (join android_home "build-tools") version
    ∧ version ∈ names ∧ version_of version = Some v
    ∧ (∀ d w, d ∈ names → version_of d = Some w → ¬ version_below v w)
    ∧ ∃ before after,
        versioned names = before ++ (version, v) :: after
        ∧ ∀ d w, (d, w) ∈ before → version_below w v.
Proof.
  exact (find_android_build_tools_highest
           {["ANDROID_SDK" := "/sdk"]}
           (λ _, Ok ["9.0.0"; "30.0.0"; "tmp"; "10.0.1"; "030.0.0"])
           "/sdk/build-tools/30.0.0" eq_refl).
Defined.

(** X11.  When no entry of [build-tools] is named by three numbers with
    dots between them, [find_android_build_tools] raises the [ValueError]
    of [max] on an empty sequence; entries like [30.0] or [30.0.0-rc1]
    do not count. *)
Theorem find_android_build_tools_no_version environ listdir android_home names :
  environ !! "ANDROID_SDK" = Some android_home →
  listdir (join android_home "build-tools") = Ok names →
  (∀ d, d ∈ names → version_of d = None) →
  find_android_build_tools environ listdir
  = inl (ValueError "max() arg is an empty sequence").
Proof.
  intros Henv Hls Hnone. unfold find_android_build_tools. rewrite Henv, Hls.
  destruct (versioned names) as [|[d v] rest] eqn:Hv; [done|].
  assert ((d, v) ∈ versioned names) as [Hd Hdv]%elem_of_versioned
    by (rewrite Hv; by left).
  by rewrite Hnone in Hdv.
Qed.

Lemma find_android_build_tools_no_version_witness :
  find_android_build_tools {["ANDROID_SDK" := "/sdk"]}
    (λ _, Ok ["30.0"; "30.0.0-rc1"])
  = inl (ValueError "max() arg is an empty sequence").
Proof.
  refine (find_android_build_tools_no_version {["ANDROID_SDK" := "/sdk"]}
            (λ _, Ok ["30.0"; "30.0.0-rc1"]) "/sdk" ["30.0"; "30.0.0-rc1"]
            eq_refl eq_refl _).
  intros d Hd. apply elem_of_cons in Hd as [->|Hd]; [reflexivity|].
  apply elem_of_cons in Hd as [->|Hd]; [reflexivity|].
  by apply elem_of_nil in Hd.
Defined.

Lemma digits_then_pretty (n : N) c t :
  is_digit c = false →
  digits_then (pretty n +:+ String c t) = Some (pretty n, String c t).
Proof.
  intros Hc. unfold digits_then. rewrite pretty_N_digit_run.
  cbn [Dex.digit_run]. rewrite Hc, app_empty_r.
  pose proof (pretty_N_nonempty n).
  destruct (pretty n) as [|a ds]; [done|]. by rewrite drop_app.
Qed.

(** X12.  The version read from the name [<a>.<b>.<c>] is the three
    numbers [a], [b] and [c]. *)
Theorem version_of_numbers (a b c : N) :
  version_of (pretty a +:+ "." +:+ pretty b +:+ "." +:+ pretty c) = Some (a, b, c).
Proof.
  unfold version_of. rewrite !app_cons, !app_empty_l.
  rewrite (digits_then_pretty a dot) by done.
  rewrite bool_decide_eq_true_2 by done.
  rewrite (digits_then_pretty b dot) by done.
  rewrite bool_decide_eq_true_2 by done.
  unfold digits_then.
  rewrite <-(app_empty_r (pretty c)), pretty_N_digit_run.
  cbn [Dex.digit_run]. rewrite !app_empty_r.
  pose proof (pretty_N_nonempty c) as Hc.
  pose proof (drop_app (pretty c) "") as Hd. rewrite app_empty_r in Hd.
  destruct (pretty c) as [|x ds] eqn:E; [done|]. rewrite Hd, <-E.
  rewrite bool_decide_eq_true_2 by by left.
  by rewrite !pretty_N_int.
Qed.

End build_tools_facts.

(** ** One directory per dex file *)

Section dex_dirs_facts.
Import Str DexDirs.
Context {W : Type}.
Variable os_mkdir : string → M W unit.
Variable shutil_move : string → string → M W unit.

Lemma basename_slash_free p : contains slash (basename p) = false.
Proof.
  induction p as [|a p IH]; [done|]. cbn [basename].
  destruct (contains slash p) eqn:Hp; [done|].
  destruct (decide (a = slash)); [done|]. cbn [contains].
  by rewrite decide_False.
Qed.

Lemma move_loop_paths root idx dexpaths res w r w' :
  move_loop os_mkdir shutil_move root idx dexpaths res w = (Ok r, w') →
  r = res ++ imap (λ i, moved_to root (idx + i)) dexpaths.
Proof.
  revert idx res w. induction dexpaths as [|dexpath rest IH]; intros idx res w.
  - cbn [move_loop]. rewrite mret_unfold. intros [= <- _].
    by rewrite app_nil_r.
  - cbn [move_loop].
    intros (_ & w1 & _ & (_ & w2 & _ & H)%mbind_inv_ok)%mbind_inv_ok.
    apply IH in H as ->. rewrite <-app_assoc. cbn [imap app]. f_equal.
    rewrite Nat.add_0_r. f_equal. apply imap_ext. intros i x _. simpl.
    by rewrite Nat.add_succ_r.
Qed.

(** X13.  When [move_dexen_to_directories] returns, it returns one path
    per dex file, in the order given: for the file of index [i] the path
    [<root>/dex<i>/<base name of the file>], the index counted from 0. *)
Theorem move_dexen_to_directories_paths root dexpaths w res w' :
  move_dexen_to_directories os_mkdir shutil_move root dexpaths w = (Ok res, w') →
  res = imap (moved_to root) dexpaths
  ∧ basename <$> res = basename <$> dexpaths.
Proof.
  intros H. apply move_loop_paths in H as ->. rewrite app_nil_l. split.
  - by apply imap_ext.
  - rewrite fmap_imap. rewrite <-(imap_const basename dexpaths).
    apply imap_ext. intros i x _. unfold compose, moved_to. cbn [Nat.add].
    apply basename_join, basename_slash_free.
Qed.

End dex_dirs_facts.

Section dex_dirs_example.
Import Str DexDirs.

Lemma move_dexen_to_directories_paths_witness :
  ["/out/dex0/classes.dex"; "/out/dex1/classes2.dex"]
  = imap (moved_to "/out") ["/apk/classes.dex"; "/apk/classes2.dex"]
  ∧ basename <$> ["/out/dex0/classes.dex"; "/out/dex1/classes2.dex"]
    = basename <$> ["/apk/classes.dex"; "/apk/classes2.dex"].
Proof.
  exact (move_dexen_to_directories_paths (W := unit)
           (λ _, mret ()) (λ _ _, mret ()) "/out"
           ["/apk/classes.dex"; "/apk/classes2.dex"] () _ () eq_refl).
Defined.

End dex_dirs_example.

Section dex_dirs_distinct.
Import Str DexDirs.

Lemma join_with_slash d n :
  contains slash n = false → Str.join d n = with_slash d +:+ n.
Proof.
  intros Hn%startswith_slash_contains. unfold Str.join, with_slash.
  rewrite Hn. repeat case_match; by rewrite ?app_assoc_str.
Qed.

Lemma endswith_app_nonempty s t c :
  t ≠ "" → endswith (s +:+ t) (String c "") = endswith t (String c "").
Proof.
  intros Ht. induction s as [|a s IH]; [by rewrite app_empty_l|].
  rewrite app_cons. cbn [endswith]. rewrite decide_False; [done|].
  intros [= _ H]. destruct s; [by destruct t|done].
Qed.

Lemma app_inv_head_str s t u : s +:+ t = s +:+ u → t = u.
Proof.
  induction s as [|a s IH]; [by rewrite !app_empty_l|].
  rewrite !app_cons. intros [= H]. by apply IH.
Qed.

Lemma moved_to_shape root idx dexpath :
  moved_to root idx dexpath
  = with_slash root +:+ "dex" +:+ pretty idx +:+ "/" +:+ basename dexpath.
Proof.
  unfold moved_to.
  assert (contains slash ("dex" +:+ pretty idx) = false) as Hd.
  { rewrite contains_app. unfold pretty, pretty_nat.
    by rewrite pretty_N_no_slash. }
  rewrite (join_with_slash root) by done.
  rewrite (join_with_slash _ (basename dexpath)) by apply basename_slash_free.
  unfold with_slash at 1.
  set (dirpath := with_slash root +:+ "dex" +:+ pretty idx).
  assert (dirpath ≠ "") as Hne.
  { unfold dirpath. destruct (with_slash root); [|done].
    by rewrite app_empty_l. }
  assert (endswith dirpath "/" = false) as Hend.
  { unfold dirpath. rewrite <-app_assoc_str.
    pose proof (pretty_N_nonempty (N.of_nat idx)) as Hp.
    rewrite endswith_app_nonempty by done.
    destruct (endswith (pretty idx) "/") eqn:E; [|done].
    apply endswith_slash_contains in E. unfold pretty, pretty_nat in E.
    by rewrite pretty_N_no_slash in E. }
  rewrite decide_False, Hend by done. unfold dirpath.
  by rewrite !app_assoc_str.
Qed.

Lemma moved_to_inj root i j p q :
  moved_to root i p = moved_to root j q → i = j.
Proof.
  rewrite !moved_to_shape. intros H%app_inv_head_str%app_inv_head_str.
  assert (∀ (n : N) t, Dex.digit_run (pretty n +:+ "/" +:+ t) = pretty n) as Hrun.
  { intros n t. rewrite pretty_N_digit_run. rewrite app_cons.
    cbn [Dex.digit_run is_digit]. by rewrite app_empty_r. }
  apply (f_equal Dex.digit_run) in H.
  change (pretty i) with (pretty (N.of_nat i)) in H.
  change (pretty j) with (pretty (N.of_nat j)) in H.
  rewrite !Hrun in H. by apply (inj pretty), (inj N.of_nat) in H.
Qed.

(** X14.  The paths [move_dexen_to_directories] returns are pairwise
    different, also for dex files of the same name: every file has a
    directory of its own. *)
Theorem move_dexen_to_directories_distinct {W}
    (os_mkdir : string → M W unit) (shutil_move : string → string → M W unit)
    root dexpaths w res w' :
  move_dexen_to_directories os_mkdir shutil_move root dexpaths w = (Ok res, w') →
  NoDup res.
Proof.
  intros H. apply move_loop_paths in H as ->. rewrite app_nil_l.
  apply NoDup_alt. intros i j x Hi Hj.
  apply list_lookup_imap_Some in Hi as (p & Hp & ->).
  apply list_lookup_imap_Some in Hj as (q & Hq & Hx).
  by apply moved_to_inj in Hx.
Qed.

Lemma move_dexen_to_directories_distinct_witness :
  NoDup ["out/dex0/classes.dex"; "out/dex1/classes.dex"].
Proof.
  exact (move_dexen_to_directories_distinct (W := unit)
           (λ _, mret ()) (λ _ _, mret ()) "out"
           ["a/classes.dex"; "b/classes.dex"] () _ () eq_refl).
Defined.

Lemma move_loop_recorded root idx dexpaths res calls :
  (move_loop record_mkdir record_move root idx dexpaths res calls).2
  = calls ++ mjoin (imap (λ i dexpath,
                            [Mkdir (Str.join root ("dex" +:+ pretty (idx + i)));
                             Move dexpath
                               (Str.join root ("dex" +:+ pretty (idx + i)))])
                         dexpaths).
Proof.
  revert idx res calls. induction dexpaths as [|dexpath rest IH];
    intros idx res calls.
  - cbn. by rewrite app_nil_r.
  - cbn [move_loop]. rewrite mbind_unfold. unfold record_mkdir at 1.
    cbv beta match. rewrite mbind_unfold. unfold record_move at 1.
    cbv beta match. rewrite IH.
    cbn [imap mjoin list_join]. rewrite Nat.add_0_r, <-!app_assoc. cbn [app].
    do 4 f_equal. apply imap_ext. intros i x _. cbn.
    by rewrite Nat.add_succ_r.
Qed.

(** X15.  Given the result of [dex_glob], the first path that
    [move_dexen_to_directories] returns is [<root>/dex0/classes.dex] and
    one more path is returned for each secondary dex; the first two calls
    it makes on the operating system are to make [<root>/dex0] and to
    move the primary dex into it. *)
Theorem move_dexen_to_directories_of_dex_glob found directory es dexpaths root :
  Dex.dex_glob found directory es = Ok dexpaths →
  (∀ W (os_mkdir : string → M W unit) (shutil_move : string → string → M W unit)
     w res w',
     move_dexen_to_directories os_mkdir shutil_move root dexpaths w = (Ok res, w') →
     ∃ rest, res = Str.join (Str.join root "dex0") "classes.dex" :: rest
             ∧ length rest = length (Dex.secondaries found directory es))
  ∧ ∃ calls,
      (move_dexen_to_directories record_mkdir record_move root dexpaths []).2
      = Mkdir (Str.join root "dex0")
          :: Move (Str.join directory "classes.dex") (Str.join root "dex0")
          :: calls.
Proof.
  intros (_ & _ & ->)%dex_glob_inv. split.
  - intros W os_mkdir shutil_move w res w' H.
    apply move_loop_paths in H as ->.
    rewrite app_nil_l. cbn [imap]. eexists. split.
    + unfold moved_to at 1. by rewrite basename_join.
    + rewrite length_imap.
      by rewrite (Permutation_length (sort_by_perm _ _)).
  - unfold move_dexen_to_directories. rewrite move_loop_recorded.
    cbn [imap mjoin list_join app Nat.add]. by eexists.
Qed.

Lemma move_dexen_to_directories_of_dex_glob_witness :
  (∃ rest, ["out/dex0/classes.dex"; "out/dex1/classes2.dex"]
           = Str.join (Str.join "out" "dex0") "classes.dex" :: rest
           ∧ length rest
             = length (Dex.secondaries nothing_found "apk"
                         [("classes2.dex", File 2%N); ("classes.dex", File 1%N)]))
  ∧ ∃ calls,
      (move_dexen_to_directories record_mkdir record_move "out"
         ["apk/classes.dex"; "apk/classes2.dex"] []).2
      = Mkdir "out/dex0" :: Move "apk/classes.dex" "out/dex0" :: calls.
Proof.
  destruct (move_dexen_to_directories_of_dex_glob nothing_found "apk"
              [("classes2.dex", File 2%N); ("classes.dex", File 1%N)]
              ["apk/classes.dex"; "apk/classes2.dex"] "out" eq_refl)
    as [H1 H2].
  split; [|exact H2].
  exact (H1 unit (λ _, mret ()) (λ _ _, mret ()) () _ () eq_refl).
Defined.

End dex_dirs_distinct.

(** ** Dex discovery and the order of the listing *)

Section dex_glob_order.
Import Str Dex.

Lemma isfile_perm es es' name :
  NoDup es.*1 → es ≡ₚ es' → FS.isfile es' name = FS.isfile es name.
Proof.
  intros Hnd Hp. unfold FS.isfile.
  assert (NoDup es'.*1) as Hnd' by by rewrite <-Hp.
  destruct (FS.child name es) as [c|] eqn:E.
  - apply child_Some in E. rewrite Hp in E.
    by rewrite (child_NoDup _ _ _ Hnd' E).
  - apply child_None in E. rewrite Hp in E. apply child_None in E.
    by rewrite E.
Qed.

Lemma secondaries_perm found directory es es' :
  es ≡ₚ es' →
  secondaries found directory es ≡ₚ secondaries found directory es'.
Proof.
  intros Hp. rewrite !secondaries_unfold. unfold globbed.
  destruct (listed_literally directory).
  - cbn [flat_map fst snd]. by rewrite Hp.
  - rewrite !flat_map_fmap. apply flat_map_perm_ext.
    intros [d [l|]] _; cbn; [done|]. by rewrite Hp.
Qed.

(** X16.  When no two secondary dex files have the same number, the
    result of [dex_glob] does not depend on the order in which the
    directory is listed. *)
Theorem dex_glob_listing_order found directory es es' res :
  NoDup es.*1 → es ≡ₚ es' →
  (∀ d1 d2, d1 ∈ secondaries found directory es →
            d2 ∈ secondaries found directory es →
            extract_dex_number d1 = extract_dex_number d2 → d1 = d2) →
  dex_glob found directory es = Ok res →
  dex_glob found directory es' = Ok res.
Proof.
  intros Hnd Hp Hinj (Hprim & Hkeys & ->)%dex_glob_inv.
  pose proof (secondaries_perm found directory es es' Hp) as Hsec.
  rewrite dex_glob_ok; [|by rewrite (isfile_perm es es')|by rewrite <-Hsec].
  do 2 f_equal. symmetry.
  apply (StronglySorted_unique_strong (key_le dex_number));
    [|apply sort_by_sorted..|by rewrite !sort_by_perm].
  intros d1 d2 H1 H2 Hle1 Hle2. rewrite sort_by_perm in H1, H2.
  rewrite <-Hsec in H2. apply Hinj; [done..|].
  rewrite Forall_forall in Hkeys.
  pose proof (Hkeys _ H1) as K1. pose proof (Hkeys _ H2) as K2.
  unfold has_key, key_le, dex_number in *.
  destruct (extract_dex_number d1), (extract_dex_number d2); try done.
  f_equal. lia.
Qed.

Lemma dex_glob_listing_order_witness :
  dex_glob nothing_found "apk"
    [("classes.dex", File 10); ("classes2.dex", File 20);
     ("foo-3.dex", File 30); ("classes10.dex", File 40)]%N
  = Ok ["apk/classes.dex"; "apk/classes2.dex"; "apk/foo-3.dex";
        "apk/classes10.dex"].
Proof.
  refine (dex_glob_listing_order nothing_found "apk" example_dir _ _ _ _ _ eq_refl).
  - apply (bool_decide_unpack _). reflexivity.
  - unfold example_dir. solve_Permutation.
  - intros d1 d2 H1 H2.
    change (secondaries nothing_found "apk" example_dir)
      with ["apk/classes10.dex"; "apk/foo-3.dex"; "apk/classes2.dex"] in H1, H2.
    rewrite !elem_of_cons, elem_of_nil in H1, H2.
    destruct H1 as [->|[->|[->|[]]]]; destruct H2 as [->|[->|[->|[]]]];
      first [reflexivity|by vm_compute].
Defined.

End dex_glob_order.

(** ** The entries of the new archive *)

Section zip_entries.
Import FS Tree ZipManager.











End zip_entries.

(** ** Names in the archive *)

Section archive_names.
Import FS Tree ZipManager.

Lemma endswith_app_slash_free s t :
  t ≠ "" → Str.contains Str.slash t = false → Str.endswith (s +:+ t) "/" = false.
Proof.
  intros Ht Hs. rewrite endswith_app_nonempty by done.
  destruct (Str.endswith t "/") eqn:E; [|done].
  apply endswith_slash_contains in E. congruence.
Qed.

Lemma foldl_join_plain b ns :
  b ≠ "" → Str.endswith b "/" = false → Forall entry_name ns →
  foldl Str.join b ns = b +:+ foldr (λ n acc, "/" +:+ n +:+ acc) "" ns.
Proof.
  intros Hb He Hns. revert b Hb He.
  induction Hns as [|n ns [Hn Hs] _ IH]; intros b Hb He.
  { cbn [foldl foldr]. by rewrite app_empty_r. }
  cbn [foldl foldr].
  assert (Str.join b n = b +:+ "/" +:+ n) as ->.
  { unfold Str.join. rewrite (startswith_slash_contains n Hs).
    by rewrite decide_False, He. }
  rewrite IH.
  - by rewrite !app_assoc_str.
  - by destruct b.
  - rewrite <-app_assoc_str. by apply endswith_app_slash_free.
Qed.

Lemma concat_slash n ns :
  foldr (λ n acc, "/" +:+ n +:+ acc) "" (n :: ns)
  = "/" +:+ String.concat "/" (n :: ns).
Proof.
  revert n. induction ns as [|m ns IH]; intros n.
  - cbn [foldr String.concat]. by rewrite app_empty_r.
  - cbn [foldr String.concat] in *. by rewrite IH.
Qed.

Lemma drop_length_succ b t :
  Str.drop (String.length b + 1) (b +:+ t) = Str.drop 1 t.
Proof.
  induction b as [|a b IH]; [by rewrite app_empty_l|].
  rewrite app_cons. cbn [String.length Nat.add drop]. apply IH.
Qed.

(** X18.  With an [extracted_apk_dir] that does not end in a slash, the
    name under which [__exit__] writes a file is the path of the file
    relative to [extracted_apk_dir], its parts joined by slashes, and the
    compression is looked up under that name. *)
Theorem write_entry_archivepath self pfc ns filename :
  extracted_apk_dir self ≠ "" →
  Str.endswith (extracted_apk_dir self) "/" = false →
  Forall entry_name (ns ++ [filename]) →
  let w := write_entry self pfc (Path (extracted_apk_dir self) ns) filename in
  filepath w = extracted_apk_dir self +:+ "/" +:+ archivepath w
  ∧ archivepath w = String.concat "/" (ns ++ [filename])
  ∧ compress w
    = default ZIP_DEFLATED (pfc !! String.concat "/" (ns ++ [filename])).
Proof.
  intros Hd He Hns w. unfold w, write_entry, join, path_str.
  cbn [base names filepath archivepath compress app].
  rewrite foldl_join_plain by done.
  destruct (ns ++ [filename]) as [|n l] eqn:E; [by destruct ns|].
  rewrite concat_slash, drop_length_succ. cbn [drop].
  rewrite !app_cons, app_empty_l. cbn [drop].
  split; [done|]. split; [done|]. by destruct (pfc !! _).
Qed.

Lemma write_entry_archivepath_witness :
  let w := write_entry first_manager
             (__enter__ first_manager first_infolist initial)
             (Path "/tmp/first" ["lib"]) "libfoo.so" in
  filepath w = "/tmp/first" +:+ "/" +:+ archivepath w
  ∧ archivepath w = "lib/libfoo.so"
  ∧ compress w = ZIP_STORED.
Proof.
  refine (write_entry_archivepath first_manager
            (__enter__ first_manager first_infolist initial)
            ["lib"] "libfoo.so" _ eq_refl _).
  - discriminate.
  - repeat constructor; discriminate.
Defined.

Lemma foldl_join_after_slash b ns :
  Str.endswith b "/" = true → Forall entry_name ns → ns ≠ [] →
  foldl Str.join b ns = b +:+ String.concat "/" ns.
Proof.
  intros He Hns Hne. destruct Hns as [|n ns [Hn Hs] Hns]; [done|].
  cbn [foldl].
  assert (Str.join b n = b +:+ n) as ->.
  { unfold Str.join. rewrite (startswith_slash_contains n Hs), He.
    by destruct b. }
  rewrite foldl_join_plain; [|by destruct b, n|by apply endswith_app_slash_free|done].
  rewrite app_assoc_str. f_equal. destruct ns as [|m ns]; [by rewrite app_empty_r|].
  rewrite concat_slash. done.
Qed.

(** X19.  With an [extracted_apk_dir] that ends in a slash, the name
    under which [__exit__] writes a file is the relative path of the file
    without its first character, and it is under this name that the
    compression is looked up. *)
Theorem write_entry_trailing_slash self pfc ns filename :
  Str.endswith (extracted_apk_dir self) "/" = true →
  Forall entry_name (ns ++ [filename]) →
  let w := write_entry self pfc (Path (extracted_apk_dir self) ns) filename in
  archivepath w = Str.drop 1 (String.concat "/" (ns ++ [filename]))
  ∧ compress w
    = default ZIP_DEFLATED
        (pfc !! Str.drop 1 (String.concat "/" (ns ++ [filename]))).
Proof.
  intros He Hns w. unfold w, write_entry, join, path_str.
  cbn [base names filepath archivepath compress app].
  rewrite foldl_join_after_slash by (done || by destruct ns).
  rewrite drop_length_succ. split; [done|]. by destruct (pfc !! _).
Qed.

Lemma write_entry_trailing_slash_witness :
  let w := write_entry
             {| input_apk := "in.apk"; extracted_apk_dir := "/tmp/first/";
                output_apk := "out.apk" |}
             (__enter__ first_manager first_infolist initial)
             (Path "/tmp/first/" ["lib"]) "libfoo.so" in
  archivepath w = "ib/libfoo.so" ∧ compress w = ZIP_DEFLATED.
Proof.
  refine (write_entry_trailing_slash
            {| input_apk := "in.apk"; extracted_apk_dir := "/tmp/first/";
               output_apk := "out.apk" |}
            (__enter__ first_manager first_infolist initial)
            ["lib"] "libfoo.so" eq_refl _).
  repeat constructor; discriminate.
Defined.

(** X20.  After [__enter__] the dictionary gives, for a name of the
    archive, the compression of the last entry of that name, and for
    every other name what it gave before: no key is ever removed. *)
Theorem enter_records_last self infolist per_file_compression name :
  __enter__ self infolist per_file_compression !! name
  = match last (filter (λ info, filename info = name) infolist) with
    | Some info => Some (compress_type info)
    | None => per_file_compression !! name
    end.
Proof.
  rewrite enter_lookup. unfold recorded. by destruct (last _).
Qed.

End archive_names.

(** ** Signature files *)

Section signature_facts.
Import FS Tree ZipManager.



End signature_facts.

(** ** Temporary directories: what cleanup removes *)

Section temp_dirs_cleanup.
Import TempDirs.

(** X22.  When the wrapped function returns, [with_temp_cleanup] removes
    every registered directory, whatever [always_clean] is, and returns;
    the list [temp_dirs] itself keeps its entries. *)
Theorem with_temp_cleanup_success (fn : M (process dirs) unit) always_clean s s1 :
  fn s = (Ok (), s1) →
  NoDup (temp_dirs s1) → (∀ d, d ∈ temp_dirs s1 → d ∈ world s1) →
  ∃ s2, with_temp_cleanup tmp_rmtree fn always_clean s = (Ok (), s2)
        ∧ temp_dirs s2 = temp_dirs s1
        ∧ world s2 = world s1 ∖ list_to_set (temp_dirs s1).
Proof.
  intros Hfn Hnd Hin. unfold with_temp_cleanup. rewrite Hfn.
  unfold remove_temp_dirs. destruct s1 as [td w]. cbn [temp_dirs world] in *.
  rewrite (remove_each td td w Hnd Hin). by eexists.
Qed.

Lemma with_temp_cleanup_success_witness :
  ∃ s2, with_temp_cleanup tmp_rmtree
          (make_temp_dir tmp_mkdtemp ".a" false;;
           make_temp_dir tmp_mkdtemp ".b" false;; mret ())
          false fresh_process
        = (Ok (), s2)
        ∧ temp_dirs s2 = ["/tmp/tmp0.a"; "/tmp/tmp0.b"]
        ∧ world s2
          = ({["/tmp/tmp0.b"]} ∪ ({["/tmp/tmp0.a"]} ∪ ∅))
            ∖ list_to_set ["/tmp/tmp0.a"; "/tmp/tmp0.b"].
Proof.
  refine (with_temp_cleanup_success
            (make_temp_dir tmp_mkdtemp ".a" false;;
             make_temp_dir tmp_mkdtemp ".b" false;; mret ())
            false fresh_process
            {| temp_dirs := ["/tmp/tmp0.a"; "/tmp/tmp0.b"];
               world := {["/tmp/tmp0.b"]} ∪ ({["/tmp/tmp0.a"]} ∪ ∅) |}
            _ _ _).
  - by vm_compute.
  - apply (bool_decide_unpack _). reflexivity.
  - intros d Hd. apply (bool_decide_unpack _).
    apply elem_of_cons in Hd as [->|Hd]; [reflexivity|].
    apply elem_of_cons in Hd as [->|Hd]; [reflexivity|].
    by apply elem_of_nil in Hd.
Defined.

(** X23.  [remove_temp_dirs] stops at the first registered directory
    that is not there: it raises [FileNotFoundError] for it, the
    directories registered before it are gone, those registered after it
    stay. *)
Theorem remove_temp_dirs_missing s before d after :
  temp_dirs s = before ++ d :: after →
  NoDup before → (∀ x, x ∈ before → x ∈ world s) → d ∉ world s →
  remove_temp_dirs tmp_rmtree s
  = (Raise (FileNotFoundError d),
     {| temp_dirs := temp_dirs s; world := world s ∖ list_to_set before |}).
Proof.
  destruct s as [td w]. cbn [temp_dirs world]. intros -> Hnd Hin Hd.
  unfold remove_temp_dirs. cbn [temp_dirs].
  generalize (before ++ d :: after) at 2 3. intros td.
  revert w Hin Hd. induction before as [|x before IH]; intros w Hin Hd.
  - cbn [app for_each]. rewrite mbind_unfold.
    unfold on_world at 1, tmp_rmtree at 1. cbn [world temp_dirs].
    rewrite decide_False by done. do 2 f_equal. set_solver+.
  - apply NoDup_cons in Hnd as [Hx Hnd].
    cbn [app for_each]. rewrite mbind_unfold.
    unfold on_world at 1, tmp_rmtree at 1. cbn [world temp_dirs].
    rewrite decide_True by (apply Hin; by left).
    rewrite IH; [|done| |].
    + do 2 f_equal. set_solver+.
    + intros y Hy. apply elem_of_difference. split; [apply Hin; by right|].
      set_solver+ Hx Hy.
    + set_solver+ Hd.
Qed.

Lemma remove_temp_dirs_missing_witness :
  remove_temp_dirs tmp_rmtree
    {| temp_dirs := ["/tmp/a"; "/tmp/gone"; "/tmp/b"];
       world := {["/tmp/a"; "/tmp/b"]} |}
  = (Raise (FileNotFoundError "/tmp/gone"),
     {| temp_dirs := ["/tmp/a"; "/tmp/gone"; "/tmp/b"];
        world := {["/tmp/a"; "/tmp/b"]} ∖ list_to_set ["/tmp/a"] |}).
Proof.
  refine (remove_temp_dirs_missing
            {| temp_dirs := ["/tmp/a"; "/tmp/gone"; "/tmp/b"];
               world := {["/tmp/a"; "/tmp/b"]} |}
            ["/tmp/a"] "/tmp/gone" ["/tmp/b"] eq_refl _ _ _).
  - apply NoDup_singleton.
  - intros x Hx. apply (bool_decide_unpack _).
    apply elem_of_cons in Hx as [->|Hx]; [reflexivity|].
    by apply elem_of_nil in Hx.
  - apply (bool_decide_unpack _). reflexivity.
Defined.

(** X24.  [temp_dirs] is never emptied: after a [remove_temp_dirs] that
    removed all the directories, a second [remove_temp_dirs] raises
    [FileNotFoundError] for the first of them. *)
Theorem remove_temp_dirs_twice s d rest :
  temp_dirs s = d :: rest →
  NoDup (temp_dirs s) → (∀ x, x ∈ temp_dirs s → x ∈ world s) →
  ∃ s1, remove_temp_dirs tmp_rmtree s = (Ok (), s1)
        ∧ remove_temp_dirs tmp_rmtree s1 = (Raise (FileNotFoundError d), s1).
Proof.
  destruct s as [td w]. cbn [temp_dirs world]. intros -> Hnd Hin.
  unfold remove_temp_dirs at 1. cbn [temp_dirs].
  rewrite (remove_each _ _ w Hnd Hin). eexists. split; [done|].
  unfold remove_temp_dirs. cbn [temp_dirs for_each]. rewrite mbind_unfold.
  unfold on_world at 1, tmp_rmtree at 1. cbn [world temp_dirs].
  rewrite decide_False; [done|]. set_solver+.
Qed.

Lemma remove_temp_dirs_twice_witness :
  ∃ s1, remove_temp_dirs tmp_rmtree
          {| temp_dirs := ["/tmp/a"]; world := {["/tmp/a"]} |} = (Ok (), s1)
        ∧ remove_temp_dirs tmp_rmtree s1
          = (Raise (FileNotFoundError "/tmp/a"), s1).
Proof.
  refine (remove_temp_dirs_twice
            {| temp_dirs := ["/tmp/a"]; world := {["/tmp/a"]} |}
            "/tmp/a" [] eq_refl _ _).
  - apply NoDup_singleton.
  - intros x Hx. apply (bool_decide_unpack _).
    apply elem_of_cons in Hx as [->|Hx]; [reflexivity|].
    by apply elem_of_nil in Hx.
Defined.

(** X25.  A directory that [make_temp_dir] made with [debug] set is not
    registered, and the next [remove_temp_dirs] leaves it in place; made
    without [debug], it is removed. *)
Theorem make_temp_dir_debug name debug s d s1 :
  make_temp_dir tmp_mkdtemp name debug s = (Ok d, s1) →
  NoDup (temp_dirs s) → (∀ x, x ∈ temp_dirs s → x ∈ world s) →
  d ∉ temp_dirs s →
  temp_dirs s1 = (if debug then temp_dirs s else temp_dirs s ++ [d])
  ∧ d ∈ world s1
  ∧ ∃ s2, remove_temp_dirs tmp_rmtree s1 = (Ok (), s2)
          ∧ (d ∈ world s2 ↔ debug = true).
Proof.
  destruct s as [td w]. cbn [temp_dirs world]. intros H Hnd Hin Hd.
  unfold make_temp_dir in H. rewrite mbind_unfold in H.
  unfold on_world at 1, tmp_mkdtemp at 1 in H. cbn [temp_dirs world] in H.
  set (dir := default _ _) in H. destruct debug; cbn [negb] in H.
  - rewrite mbind_unfold, !mret_unfold in H. injection H as <- <-.
    cbn [temp_dirs world]. split; [done|]. split; [set_solver+|].
    unfold remove_temp_dirs. cbn [temp_dirs].
    rewrite (remove_each td td _ Hnd) by set_solver.
    eexists. split; [done|]. cbn [world]. split; [done|]. intros _.
    set_solver+ Hd.
  - rewrite mbind_unfold in H. unfold append_temp_dir at 1 in H.
    cbn [temp_dirs world] in H. rewrite mret_unfold in H.
    injection H as <- <-. cbn [temp_dirs world].
    split; [done|]. split; [set_solver+|].
    unfold remove_temp_dirs. cbn [temp_dirs].
    rewrite remove_each.
    + eexists. split; [done|]. cbn [world]. split; [|done]. set_solver+.
    + apply NoDup_app. split_and!; [done| |apply NoDup_singleton].
      intros x Hx ->%list_elem_of_singleton. done.
    + intros x [Hx| ->%list_elem_of_singleton]%elem_of_app; [|set_solver+].
      specialize (Hin x Hx). set_solver+ Hin.
Qed.

Lemma make_temp_dir_debug_witness :
  temp_dirs (make_temp_dir tmp_mkdtemp ".keep" true fresh_process).2 = []
  ∧ "/tmp/tmp0.keep" ∈ world (make_temp_dir tmp_mkdtemp ".keep" true fresh_process).2
  ∧ ∃ s2, remove_temp_dirs tmp_rmtree
            (make_temp_dir tmp_mkdtemp ".keep" true fresh_process).2 = (Ok (), s2)
          ∧ ("/tmp/tmp0.keep" ∈ world s2 ↔ true = true).
Proof.
  refine (make_temp_dir_debug ".keep" true fresh_process "/tmp/tmp0.keep"
            (make_temp_dir tmp_mkdtemp ".keep" true fresh_process).2 _ _ _ _).
  - by vm_compute.
  - constructor.
  - by intros x ?%elem_of_nil.
  - by intros ?%elem_of_nil.
Defined.

End temp_dirs_cleanup.

(** ** UnpackManager: the files that [__enter__] returns *)

Section unpack_manager_stores.
Import TempDirs UnpackManager.
Context {W DexMode AppModule : Type}.
Variable detect_secondary_dex_mode : string → M W DexMode.
Variable dex_mode_type_name : DexMode → string.
Variable dex_mode_unpackage : DexMode → string → string → M W unit.
Variable ApplicationModule_detect : string → M W (list AppModule).
Variable get_name : AppModule → string.
Variable get_canary_prefix : AppModule → option string.
Variable module_unpackage : AppModule → string → string → M W unit.
Variable write_redex_metadata : AppModule → string → string → M W unit.
Variable os_mkdir : string → M W unit.
Variable mkdtemp : string → M W string.

Local Abbreviation state := (@UnpackManager.state W DexMode AppModule).
Local Abbreviation enter :=
  (__enter__ detect_secondary_dex_mode dex_mode_type_name dex_mode_unpackage
     ApplicationModule_detect get_name get_canary_prefix module_unpackage
     write_redex_metadata os_mkdir mkdtemp).

Lemma call_keeps {A} (m : M W A) (s : state) r s1 :
  call m s = (r, s1) →
  self s1 = self s ∧ temp_dirs (proc s1) = temp_dirs (proc s).
Proof.
  unfold call, on_proc, on_world. destruct (m (world (proc s))) as [r' w].
  by intros [= _ <-].
Qed.

Lemma bind_call_ok {A B} (m : M W A) (k : A → M state B) (s : state) b s' :
  (call m ≫= k) s = (Ok b, s') →
  ∃ a s1, self s1 = self s ∧ temp_dirs (proc s1) = temp_dirs (proc s)
          ∧ k a s1 = (Ok b, s').
Proof.
  intros (a & s1 & [??]%call_keeps & ?)%mbind_inv_ok. by exists a, s1.
Qed.

Lemma make_temp_dir_registers name debug (p : process W) d p' :
  make_temp_dir mkdtemp name debug p = (Ok d, p') →
  temp_dirs p' = if debug then temp_dirs p else temp_dirs p ++ [d].
Proof.
  unfold make_temp_dir. rewrite mbind_unfold. unfold on_world at 1.
  destruct (mkdtemp name (world p)) as [[d'|e] w]; [|done].
  destruct debug; cbn [negb]; rewrite mbind_unfold; cbn; by intros [= <- <-].
Qed.

Lemma unpack_loop_files me store_metadata_dir modules files (s : state) r s' :
  unpack_loop get_name get_canary_prefix module_unpackage write_redex_metadata
    os_mkdir me store_metadata_dir modules files s = (Ok r, s') →
  r = files ++ ((λ m, Str.join store_metadata_dir (get_name m +:+ ".json"))
                <$> modules)
  ∧ self s' = self s
  ∧ temp_dirs (proc s') = temp_dirs (proc s).
Proof.
  revert files s. induction modules as [|m rest IH]; intros files s H.
  - cbn [unpack_loop] in H. rewrite mret_unfold in H. simplify_eq.
    by rewrite app_nil_r.
  - cbn [unpack_loop] in H. rewrite bind_log in H.
    apply bind_call_ok in H as ([] & s1 & Hs1 & Ht1 & H).
    apply bind_call_ok in H as ([] & s2 & Hs2 & Ht2 & H).
    apply bind_call_ok in H as ([] & s3 & Hs3 & Ht3 & H).
    apply IH in H as (-> & Hs & Ht). cbn [self proc] in *.
    split; [by rewrite <-app_assoc|]. split; congruence.
Qed.

(** X26.  The files that [__enter__] returns are one per detected module,
    in the order of detection: [<name of the module>.json] in one
    metadata directory.  That directory is registered in [temp_dirs],
    unless the manager is in debug mode. *)
Theorem enter_store_files (s : state) files s' :
  enter s = (Ok files, s') →
  ∃ store_metadata_dir,
    files = (λ m, Str.join store_metadata_dir (get_name m +:+ ".json"))
            <$> application_modules (self s')
    ∧ temp_dirs (proc s')
      = if debug_mode (self s) then temp_dirs (proc s)
        else temp_dirs (proc s) ++ [store_metadata_dir].
Proof.
  intros H. unfold __enter__ in H. rewrite mbind_unfold in H.
  unfold get_self in H.
  apply bind_call_ok in H as (mode & s1 & Hs1 & Ht1 & H).
  rewrite mbind_unfold in H. unfold set_dex_mode in H.
  rewrite !bind_log in H. cbn [self proc logged] in H.
  apply bind_call_ok in H as ([] & s2 & Hs2 & Ht2 & H).
  cbn [self proc] in Hs2, Ht2. rewrite bind_log in H.
  apply mbind_inv_ok in H as (dir & s3 & Hmk & H).
  unfold on_proc in Hmk. cbn [self proc logged] in Hmk.
  destruct (make_temp_dir _ _ _ _) as [r p3] eqn:Hmake.
  injection Hmk as -> <-.
  apply make_temp_dir_registers in Hmake.
  apply bind_call_ok in H as (modules & s4 & Hs4 & Ht4 & H).
  cbn [self proc] in Hs4, Ht4.
  rewrite mbind_unfold in H.
  unfold set_application_modules in H. cbn [self proc logged] in H.
  apply unpack_loop_files in H as (-> & Hs & Ht). cbn [self proc] in Hs, Ht.
  exists dir. rewrite Hs. cbn [application_modules]. split; [done|].
  by rewrite Ht, Ht4, Hmake, Ht2, Ht1.
Qed.

End unpack_manager_stores.

Section unpack_manager_stores_example.
Import TempDirs UnpackManager.

Lemma enter_store_files_witness :
  ∃ store_metadata_dir,
    ["/tmp/tmp0.application_module_metadata/zeta.json";
     "/tmp/tmp0.application_module_metadata/alpha.json";
     "/tmp/tmp0.application_module_metadata/mid.json"]
    = (λ m, Str.join store_metadata_dir (id m +:+ ".json"))
      <$> application_modules (self (demo_enter demo_start).2)
    ∧ temp_dirs (proc (demo_enter demo_start).2)
      = if debug_mode (self demo_start) then temp_dirs (proc demo_start)
        else temp_dirs (proc demo_start) ++ [store_metadata_dir].
Proof.
  refine (enter_store_files
            (λ _, mret ()) (λ _, "Api21DexMode") (λ _ _ _, mret ())
            (λ _, mret demo_modules) id (λ _, None)
            (λ _ _ _, mret ()) (λ _ _ _, mret ())
            (λ _, mret ()) demo_mkdtemp
            demo_start
            ["/tmp/tmp0.application_module_metadata/zeta.json";
             "/tmp/tmp0.application_module_metadata/alpha.json";
             "/tmp/tmp0.application_module_metadata/mid.json"]
            (demo_enter demo_start).2 _).
  by vm_compute.
Defined.

End unpack_manager_stores_example.

(** ** LibraryManager: what is queued, and what a failure leaves *)

Section library_manager_queue.
Import FS Tree LibraryManager.







End library_manager_queue.

Section library_manager_failures.
Import FS Tree LibraryManager.

Lemma mkdir_exists d name x es les c :
  child name es = Some (Dir les) → child x les = Some c →
  mkdir (Path d [name; x]) es
  = (Raise (FileExistsError (path_str (Path d [name; x]))), es).
Proof.
  intros Hn Hx. unfold mkdir, lift, split_last.
  cbn [names removelast List.last fst snd].
  rewrite (alter_dir_cons _ _ _ _ _ les) by done. rewrite alter_dir_nil.
  by rewrite Hx.
Qed.


(** X28.  When there is something to expand and the directory
    [lib/__extracted_libs__] is already there, [__enter__] raises
    [FileExistsError] for it and leaves the tree and the object as they
    were: [temporary_libs_dir] is not set. *)
Theorem enter_scratch_exists decompress s libs :
  (find_libs (extracted_apk_dir (self s)) (tree s)).1 = Ok libs →
  libs ≠ [] →
  is_Some (lookup ["lib"; "__extracted_libs__"] (Dir (tree s))) →
  __enter__ decompress s
  = (Raise (FileExistsError
              (path_str (Path (extracted_apk_dir (self s))
                           ["lib"; "__extracted_libs__"]))), s).
Proof.
  destruct s as [me es]. cbn [self tree]. intros Hfind Hne Hex.
  unfold __enter__. rewrite mbind_unfold.
  unfold on_tree at 1. cbn [self tree].
  destruct (find_libs (extracted_apk_dir me) es) as [r es'] eqn:E.
  pose proof (find_libs_tree _ _ _ _ E) as ->. cbn [fst] in Hfind. subst r.
  rewrite decide_True by (destruct libs; [done|cbn; lia]).
  rewrite mbind_unfold. unfold on_tree at 1. cbn [self tree].
  unfold ensure_libs_dir.
  change (join (root_of (extracted_apk_dir me)) "lib")
    with (Path (extracted_apk_dir me) ["lib"]) in *.
  change (join (Path (extracted_apk_dir me) ["lib"]) "__extracted_libs__")
    with (Path (extracted_apk_dir me) ["lib"; "__extracted_libs__"]) in *.
  rewrite exists_child. cbn [lookup] in Hex.
  destruct (child "lib" es) as [[size|les]|] eqn:Hlib;
    [by destruct Hex|  |by destruct Hex].
  cbn [mbind option_bind] in Hex.
  destruct (child "__extracted_libs__" les) as [c|] eqn:Hx; [|by destruct Hex].
  rewrite bool_decide_eq_true_2 by (by eexists).
  rewrite mbind_unfold. by rewrite (mkdir_exists _ _ _ _ les c).
Qed.

Lemma enter_scratch_exists_witness :
  __enter__ always_decompressed
    {| self := new_manager;
       tree := [("lib", Dir [("__extracted_libs__", Dir [])]);
                ("assets", Dir [("libs.xzs", File 10%N)])] |}
  = (Raise (FileExistsError "/tmp/apk/lib/__extracted_libs__"),
     {| self := new_manager;
        tree := [("lib", Dir [("__extracted_libs__", Dir [])]);
                 ("assets", Dir [("libs.xzs", File 10%N)])] |}).
Proof.
  refine (enter_scratch_exists always_decompressed
            {| self := new_manager;
               tree := [("lib", Dir [("__extracted_libs__", Dir [])]);
                        ("assets", Dir [("libs.xzs", File 10%N)])] |}
            [Path "/tmp/apk" ["assets"; "libs.xzs"]] eq_refl _ _).
  - discriminate.
  - by eexists.
Defined.




End library_manager_failures.
